(** * Authentication-form detection ([src/app/utils/htmlParser.ts])

    A shallow embedding of the two implementations of
    [parseHtmlForAuthForms] found in the repository, and the properties
    of the report they build.

    The source holds two versions of [htmlParser.ts].  The first one
    accepts an input as a candidate when a keyword OR the surrounding
    context matches; it is embedded in [Module Permissive].  The second
    one (its comments say STRICT) asks for a keyword AND a context made of
    both text and button evidence; it is embedded in [Module Strict].
    Code that is textually the same in both versions is embedded once.

    Modelling choices.
    - [cheerio.load] is a library call: the parsed document is the input
      of [parseDocument], and [parseHtmlForAuthForms] takes the loader as
      an argument.
    - Strings are sequences of 8-bit characters; [toLowerCase] and
      [toUpperCase] fold the letters A-Z / a-z only.
    - A cheerio selection of at most one element is an [option cursor],
      any other selection a [list cursor] in document order.
    - A selector is a predicate on nodes.  In an HTML document the value
      of the [type] attribute is matched without regard to letter case by
      an attribute selector, whereas [===] on [attr('type')] is exact. *)

From Stdlib Require Import String Ascii List Bool Arith Lia DecimalString.
Import ListNotations.
Open Scope string_scope.
Open Scope list_scope.

(** ** Strings as the source uses them *)

Definition lowerChar (c : ascii) : ascii :=
  let n := nat_of_ascii c in
  if ((65 <=? n) && (n <=? 90))%nat then ascii_of_nat (n + 32) else c.

Definition upperChar (c : ascii) : ascii :=
  let n := nat_of_ascii c in
  if ((97 <=? n) && (n <=? 122))%nat then ascii_of_nat (n - 32) else c.

Fixpoint mapChars (f : ascii -> ascii) (s : string) : string :=
  match s with
  | EmptyString => EmptyString
  | String c s' => String (f c) (mapChars f s')
  end.

Definition toLowerCase : string -> string := mapChars lowerChar.
Definition toUpperCase : string -> string := mapChars upperChar.

(** [s.includes(pat)] *)
Fixpoint includes (s pat : string) : bool :=
  if String.prefix pat s then true
  else match s with
       | EmptyString => false
       | String _ s' => includes s' pat
       end.

(** [xs.join(sep)] *)
Definition join (sep : string) (xs : list string) : string :=
  String.concat sep xs.

(** The double-quote character, as it occurs in template literals. *)
Definition dq : string := String (ascii_of_nat 34) EmptyString.

(** Decimal rendering of an index inside a template literal. *)
Definition showNat (n : nat) : string :=
  NilEmpty.string_of_uint (Nat.to_uint n).

(** JavaScript truthiness of a possibly undefined string, as used by
    [x || y]: [undefined] and the empty string are falsy. *)
Definition truthy (o : option string) : option string :=
  match o with
  | Some s => if String.eqb s "" then None else Some s
  | None => None
  end.

(** [a || b] on possibly undefined strings. *)
Definition orElse (a b : option string) : option string :=
  match truthy a with
  | Some s => Some s
  | None => b
  end.

(** [a || 'literal'] *)
Definition orDefault (a : option string) (d : string) : string :=
  match truthy a with
  | Some s => s
  | None => d
  end.

Definition optEqb (a b : option string) : bool :=
  match a, b with
  | Some x, Some y => String.eqb x y
  | None, None => true
  | _, _ => false
  end.

(** ** The document tree *)

Set Warnings "-register-all".

Inductive node : Type :=
| Text (data : string)
| Comment (data : string)
| Element (name : string) (attribs : list (string * string))
          (children : list node).

Definition document : Type := list node.

Definition tagOf (n : node) : option string :=
  match n with
  | Element t _ _ => Some t
  | _ => None
  end.

Definition childrenOf (n : node) : list node :=
  match n with
  | Element _ _ cs => cs
  | _ => []
  end.

Fixpoint lookupAttr (k : string) (l : list (string * string)) : option string :=
  match l with
  | [] => None
  | (k', v) :: l' => if String.eqb k k' then Some v else lookupAttr k l'
  end.

(** [$el.attr(k)] *)
Definition attrOf (k : string) (n : node) : option string :=
  match n with
  | Element _ a _ => lookupAttr k a
  | _ => None
  end.

Definition hasTag (t : string) (n : node) : bool :=
  match n with
  | Element t' _ _ => String.eqb t' t
  | _ => false
  end.

(** The attribute selector [[type="v"]] of an HTML document. *)
Definition typeMatches (v : string) (n : node) : bool :=
  match attrOf "type" n with
  | Some a => String.eqb (toLowerCase a) (toLowerCase v)
  | None => false
  end.

(** [.text()] of one node: the data of its text descendants. *)
Fixpoint textContent (n : node) : string :=
  match n with
  | Text s => s
  | Comment _ => ""
  | Element _ _ cs => String.concat "" (map textContent cs)
  end.

(** *** Serialisation ([prop('outerHTML')]) *)

Fixpoint escapeWith (f : ascii -> option string) (s : string) : string :=
  match s with
  | EmptyString => EmptyString
  | String c s' =>
      match f c with
      | Some e => e ++ escapeWith f s'
      | None => String c (escapeWith f s')
      end
  end.

Definition textEntity (c : ascii) : option string :=
  let n := nat_of_ascii c in
  if (n =? 38)%nat then Some "&amp;"
  else if (n =? 60)%nat then Some "&lt;"
  else if (n =? 62)%nat then Some "&gt;"
  else None.

Definition attrEntity (c : ascii) : option string :=
  let n := nat_of_ascii c in
  if (n =? 38)%nat then Some "&amp;"
  else if (n =? 34)%nat then Some "&quot;"
  else None.

Definition renderAttr (kv : string * string) : string :=
  " " ++ fst kv ++ "=" ++ dq ++ escapeWith attrEntity (snd kv) ++ dq.

Definition voidElements : list string :=
  ["area"; "base"; "br"; "col"; "embed"; "hr"; "img"; "input"; "link";
   "meta"; "param"; "source"; "track"; "wbr"].

Definition isVoid (t : string) : bool := existsb (String.eqb t) voidElements.

Fixpoint outerHTML (n : node) : string :=
  match n with
  | Text s => escapeWith textEntity s
  | Comment s => "<!--" ++ s ++ "-->"
  | Element t a cs =>
      "<" ++ t ++ String.concat "" (map renderAttr a) ++ ">" ++
      (if isVoid t then ""
       else String.concat "" (map outerHTML cs) ++ "</" ++ t ++ ">")
  end.

(** ** Cursors: an element together with its place in the document *)

Record cursor : Type := mkCursor {
  here : node;            (* the element itself *)
  path : list nat;        (* child indices from the root, innermost first *)
  above : list node       (* its ancestor elements, innermost first *)
}.

(** [$el.parent()]: the document node itself is never returned. *)
Definition parent (c : cursor) : option cursor :=
  match above c with
  | [] => None
  | p :: ups => Some (mkCursor p (tl (path c)) ups)
  end.

(** All elements of a subtree, the root of the subtree first, in document
    order. *)
Fixpoint subtree (ups : list node) (rpath : list nat) (n : node)
  : list cursor :=
  match n with
  | Element _ _ cs =>
      mkCursor n rpath ups ::
      (fix kids (i : nat) (l : list node) {struct l} : list cursor :=
         match l with
         | [] => []
         | k :: l' => subtree (n :: ups) (i :: rpath) k ++ kids (S i) l'
         end) 0 cs
  | _ => []
  end.

Fixpoint forest (ups : list node) (rpath : list nat) (i : nat)
         (l : list node) : list cursor :=
  match l with
  | [] => []
  | k :: l' => subtree ups (i :: rpath) k ++ forest ups rpath (S i) l'
  end.

(** [$(sel)] over the whole document. *)
Definition select (sel : node -> bool) (d : document) : list cursor :=
  filter (fun c => sel (here c)) (forest [] [] 0 d).

(** [$el.find(sel)]: the proper descendants that match. *)
Definition find (sel : node -> bool) (c : cursor) : list cursor :=
  filter (fun x => sel (here x))
         (forest (here c :: above c) (path c) 0 (childrenOf (here c))).

Definition findIn (sel : node -> bool) (o : option cursor) : list cursor :=
  match o with
  | Some c => find sel c
  | None => []
  end.

(** The chain of ancestors, innermost first. *)
Fixpoint ancestorsFrom (rpath : list nat) (ups : list node) : list cursor :=
  match ups with
  | [] => []
  | p :: ups' => mkCursor p (tl rpath) ups' :: ancestorsFrom (tl rpath) ups'
  end.

Definition ancestors (c : cursor) : list cursor :=
  ancestorsFrom (path c) (above c).

(** [$el.closest('form')]: the element itself or its nearest ancestor. *)
Definition closest (sel : node -> bool) (c : cursor) : option cursor :=
  List.find (fun x => sel (here x)) (c :: ancestors c).

(** Document order on paths written from the root. *)
Fixpoint comparePath (p q : list nat) : comparison :=
  match p, q with
  | [], [] => Eq
  | [], _ :: _ => Lt
  | _ :: _, [] => Gt
  | i :: p', j :: q' =>
      match Nat.compare i j with
      | Eq => comparePath p' q'
      | c => c
      end
  end.

Fixpoint insertCursor (x : cursor) (l : list cursor) : list cursor :=
  match l with
  | [] => [x]
  | y :: l' =>
      match comparePath (rev (path x)) (rev (path y)) with
      | Eq => l
      | Lt => x :: l
      | Gt => y :: insertCursor x l'
      end
  end.

(** [a.add(b)]: the union, without repetition, in document order. *)
Definition add (a b : list cursor) : list cursor :=
  fold_left (fun acc x => insertCursor x acc) b a.

(** [.text()] of a selection. *)
Definition textOf (sel : list cursor) : string :=
  String.concat "" (map (fun c => textContent (here c)) sel).

Definition textOfOpt (o : option cursor) : string :=
  match o with
  | Some c => textContent (here c)
  | None => ""
  end.

(** *** Selectors used by the source *)

(** ['input'] *)
Definition isInput : node -> bool := hasTag "input".

(** ['input[type="password"]'] *)
Definition isPasswordSel (n : node) : bool :=
  isInput n && typeMatches "password" n.

(** ['input[type="hidden"]'] *)
Definition isHiddenSel (n : node) : bool :=
  isInput n && typeMatches "hidden" n.

(** ['button, input[type="submit"], a'] *)
Definition isButtonLike (n : node) : bool :=
  hasTag "button" n || (isInput n && typeMatches "submit" n) || hasTag "a" n.

(** [$el.find('input').not('input[type="hidden"]')] *)
Definition visibleInputs (c : cursor) : list cursor :=
  filter (fun x => negb (isHiddenSel (here x))) (find isInput c).

(** [$el.attr(k)] on a cursor. *)
Definition attr (k : string) (c : cursor) : option string := attrOf k (here c).

(** ** The report *)

Record PasswordInput : Type := mkPasswordInput {
  pw_selector : string;
  pw_name : option string;
  pw_id : option string;
  pw_placeholder : option string;
  pw_type : option string
}.

Record OtherInput : Type := mkOtherInput {
  ot_type : string;
  ot_name : option string;
  ot_id : option string;
  ot_placeholder : option string
}.

Record AuthForm : Type := mkAuthForm {
  hasPasswordInput : bool;
  formElement : option string;
  parentElement : option string;
  inputCount : nat;
  passwordInputs : list PasswordInput;
  otherInputs : list OtherInput
}.

(** The literal returned on the negative paths. *)
Definition negativeResult : AuthForm :=
  mkAuthForm false None None 0 [] [].

(** A call either returns a value or throws. *)
Inductive outcome (A : Type) : Type :=
| Returns (a : A)
| Throws (error : string).
Arguments Returns {A} a.
Arguments Throws {A} error.

Definition bind {A B : Type} (m : outcome A) (k : A -> outcome B)
  : outcome B :=
  match m with
  | Returns a => k a
  | Throws e => Throws e
  end.

Notation "x <- m ;; k" := (bind m (fun x => k))
  (at level 61, m at next level, right associativity).

(** [xs[i].field]: reading a property of [undefined] throws. *)
Definition itemAt {A : Type} (xs : list A) (i : nat) : outcome A :=
  match nth_error xs i with
  | Some x => Returns x
  | None => Throws "TypeError: Cannot read properties of undefined"
  end.

(** ** Code shared by the two implementations *)

(** The attribute bag of an input (lines 68-80 and 439-451). *)
Definition bagAttributes : list string :=
  ["name"; "id"; "placeholder"; "type"; "class"; "aria-label";
   "aria-labelledby"; "autocomplete"; "data-testid"; "data-cy"; "data-test"].

Definition keepAttr (o : option string) : list string :=
  match truthy o with
  | Some s => if String.eqb s "undefined" then [] else [s]
  | None => []
  end.

Definition attributes (input : cursor) : string :=
  toLowerCase
    (join " " (flat_map (fun k => keepAttr (attr k input)) bagAttributes)).

(** [$input.attr('type') === 'password'] *)
Definition isPasswordTyped (input : cursor) : bool :=
  optEqb (attr "type" input) (Some "password").

(** One entry of [allAuthInputs] (lines 162-169 and 520-527). *)
Record AuthInput : Type := mkAuthInput {
  ai_element : cursor;
  ai_selector : string;
  ai_name : option string;
  ai_id : option string;
  ai_placeholder : option string;
  ai_type : option string
}.

Definition authInputOf (input : cursor) : AuthInput :=
  mkAuthInput input
    (orDefault (Some (outerHTML (here input))) "")
    (truthy (attr "name" input))
    (truthy (attr "id" input))
    (truthy (attr "placeholder" input))
    (truthy (attr "type" input)).

(** Rendering of a possibly undefined value inside a template literal. *)
Definition showOpt (o : option string) : string :=
  match o with
  | Some s => s
  | None => "undefined"
  end.

(** [inputId] (lines 152 and 510). *)
Definition inputId (index : nat) (input : cursor) : string :=
  match orElse (attr "id" input) (attr "name" input) with
  | Some s => s
  | None => "input-" ++ showNat index
  end.

(** [inputSelector] (lines 153 and 511). *)
Definition inputSelector (index : nat) (input : cursor) : string :=
  let inputId := inputId index input in
  orDefault (attr "type" input) "input" ++ "[" ++
  (if String.eqb inputId ""
   then "name=" ++ dq ++ showOpt (attr "name" input) ++ dq
   else "id=" ++ dq ++ inputId ++ dq) ++ "]".

(** [processedInputs.has(k)] on the set kept as the list of its members. *)
Definition has (processedInputs : list string) (k : string) : bool :=
  existsb (String.eqb k) processedInputs.

(** The [authInputs.each] loop (lines 148-170 and 506-528): the entries
    pushed to [allAuthInputs], in order. *)
Fixpoint collectInputs (index : nat) (processedInputs : list string)
         (authInputs : list cursor) : list AuthInput :=
  match authInputs with
  | [] => []
  | input :: rest =>
      let inputSelector := inputSelector index input in
      if has processedInputs inputSelector
      then collectInputs (S index) processedInputs rest
      else authInputOf input ::
           collectInputs (S index) (inputSelector :: processedInputs) rest
  end.

Definition passwordDescriptor (input : AuthInput) : PasswordInput :=
  mkPasswordInput (ai_selector input) (ai_name input) (ai_id input)
                  (ai_placeholder input) (ai_type input).

(** [type: input.id || input.type || 'text'] *)
Definition otherDescriptor (input : AuthInput) : OtherInput :=
  mkOtherInput
    (orDefault (orElse (ai_id input) (ai_type input)) "text")
    (ai_name input) (ai_id input) (ai_placeholder input).

(** The [allAuthInputs.forEach] loop (lines 173-195 and 531-553): the two
    lists after all pushes. *)
Fixpoint categorize (allAuthInputs : list AuthInput)
  : list PasswordInput * list OtherInput :=
  match allAuthInputs with
  | [] => ([], [])
  | input :: rest =>
      let (pws, others) := categorize rest in
      if isPasswordTyped (ai_element input)
      then (passwordDescriptor input :: pws, others)
      else (pws, otherDescriptor input :: others)
  end.

(** [self.findIndex(p)]; [None] stands for -1. *)
Fixpoint findIndex {A : Type} (p : A -> bool) (self : list A) : option nat :=
  match self with
  | [] => None
  | x :: rest =>
      if p x then Some 0
      else match findIndex p rest with
           | Some i => Some (S i)
           | None => None
           end
  end.

(** [self.filter((input, index, self) => keep input index)] *)
Fixpoint filterIndexed {A : Type} (keep : A -> nat -> bool) (index : nat)
         (l : list A) : list A :=
  match l with
  | [] => []
  | x :: rest =>
      if keep x index then x :: filterIndexed keep (S index) rest
      else filterIndexed keep (S index) rest
  end.

Definition eqIndex (o : option nat) (index : nat) : bool :=
  match o with
  | Some i => Nat.eqb i index
  | None => false
  end.

(** The final deduplication (lines 270-280 and 633-643), for a list whose
    entries are compared by [same]. *)
Definition uniqueInputs {A : Type} (same : A -> A -> bool) (self : list A)
  : list A :=
  filterIndexed
    (fun input index => eqIndex (findIndex (fun i => same i input) self) index)
    0 self.

(** [i.id === input.id && i.name === input.name && i.type === input.type] *)
Definition samePassword (i input : PasswordInput) : bool :=
  optEqb (pw_id i) (pw_id input) &&
  optEqb (pw_name i) (pw_name input) &&
  optEqb (pw_type i) (pw_type input).

Definition sameOther (i input : OtherInput) : bool :=
  optEqb (ot_id i) (ot_id input) &&
  optEqb (ot_name i) (ot_name input) &&
  String.eqb (ot_type i) (ot_type input).

(** *** The ancestor walk *)

(** [$parent.prop('tagName')?.toLowerCase()] is body, html or head. *)
Definition isTopLevel (c : cursor) : bool :=
  match tagOf (here c) with
  | Some t =>
      let tagName := toLowerCase (toUpperCase t) in
      String.eqb tagName "body" || String.eqb tagName "html" ||
      String.eqb tagName "head"
  | None => false
  end.

(** The callback of [$parent.find('input').filter(...)] (lines 214-227
    and 572-585). *)
Definition isEmailUsername (el : cursor) : bool :=
  let type := option_map toLowerCase (attr "type" el) in
  let name := orDefault (option_map toLowerCase (attr "name" el)) "" in
  let id := orDefault (option_map toLowerCase (attr "id" el)) "" in
  let placeholder :=
    orDefault (option_map toLowerCase (attr "placeholder" el)) "" in
  let className := orDefault (option_map toLowerCase (attr "class" el)) "" in
  optEqb type (Some "email") ||
  (optEqb type (Some "text") &&
   (includes name "email" || includes name "username" ||
    includes name "user" ||
    includes id "email" || includes id "username" || includes id "user" ||
    includes placeholder "email" || includes placeholder "username" ||
    includes className "email" || includes className "username")).

Definition hasEmailUsername (p : cursor) : bool :=
  (0 <? length (filter isEmailUsername (find isInput p)))%nat.

Definition hasPassword (p : cursor) : bool :=
  (0 <? length (find isPasswordSel p))%nat.

Definition maxDepth : nat := 10.

Definition isNull {A : Type} (o : option A) : bool :=
  match o with
  | Some _ => false
  | None => true
  end.

Section Walk.

(** What differs between the two loops: whether an ancestor is
    eligible, and with which score. *)
Variable consider : cursor -> option nat.

(** The [while] loop (lines 206-250 and 564-613); [remaining] is
    [maxDepth - depth]. *)
Fixpoint walk (remaining : nat) (p : option cursor)
         (bestParent : option cursor) (bestParentScore : nat)
  : option cursor :=
  match remaining with
  | 0 => bestParent
  | S remaining' =>
      match p with
      | None => bestParent
      | Some c =>
          if isTopLevel c then bestParent
          else
            match consider c with
            | Some score =>
                if (bestParentScore <? score)%nat || isNull bestParent
                then walk remaining' (parent c) (Some c) score
                else walk remaining' (parent c) bestParent bestParentScore
            | None => walk remaining' (parent c) bestParent bestParentScore
            end
      end
  end.

(** [bestParent || allAuthInputs[0].element.parent()] *)
Definition finalParent (first : cursor) : option cursor :=
  match walk maxDepth (parent first) None 0 with
  | Some best => Some best
  | None => parent first
  end.

(** Lines 135-283 and 493-646: the report built from the candidate
    inputs, before any final validation. *)
Definition buildAuthForm (authInputs : list cursor) : outcome AuthForm :=
  let allAuthInputs := collectInputs 0 [] authInputs in
  let (pws, others) := categorize allAuthInputs in
  located <-
    (if (0 <? length allAuthInputs)%nat
     then first <- itemAt allAuthInputs 0 ;;
          Returns
            (match finalParent (ai_element first) with
             | Some fp =>
                 let markup := truthy (Some (outerHTML (here fp))) in
                 (markup, length (visibleInputs fp),
                  if hasTag "form" (here fp) then markup else None)
             | None => (None, 0, None)
             end)
     else Returns (None, 0, None)) ;;
  let '(parentElement, inputCount, formElement) := located in
  Returns (mkAuthForm true formElement parentElement inputCount
                      (uniqueInputs samePassword pws)
                      (uniqueInputs sameOther others)).

End Walk.

(** ** First implementation: keyword OR context *)

Module Permissive.

Definition authTextPatterns : list string :=
  ["sign in"; "signin"; "log in"; "login"; "log in to";
   "enter your password"; "password"; "username"; "email";
   "forgot password"; "reset password"; "create account";
   "authentication"; "credentials"; "access"].

Definition authButtonPatterns : list string :=
  ["sign in"; "signin"; "log in"; "login"; "submit";
   "continue"; "next"; "enter"; "access"].

(** Lines 24-59. *)
Definition hasAuthenticationContext (input : cursor) : bool :=
  let p := parent input in
  let form := closest (hasTag "form") input in
  let parentText := toLowerCase (textOfOpt p) in
  let formText :=
    match form with
    | Some f => toLowerCase (textContent (here f))
    | None => ""
    end in
  let hasAuthText :=
    existsb (fun pattern =>
               includes parentText pattern || includes formText pattern)
            authTextPatterns in
  let nearbyButtons := add (findIn isButtonLike p) (findIn isButtonLike form) in
  let buttonText := toLowerCase (textOf nearbyButtons) in
  let hasAuthButton :=
    existsb (fun pattern => includes buttonText pattern)
            authButtonPatterns in
  hasAuthText || hasAuthButton.

Definition authKeywords : list string :=
  ["password"; "pass"; "passwd"; "pwd";
   "email"; "username"; "user"; "login"; "signin"; "sign-in";
   "authentication"; "auth"; "credential"].

(** The callback of [allInputs.filter] (lines 65-120). *)
Definition isAuthInput (input : cursor) : bool :=
  let attributes := attributes input in
  if isPasswordTyped input then true
  else
    let inputValue := orDefault (attr "value" input) "" in
    let isPasswordField :=
      includes attributes "password" ||
      includes attributes "pass" ||
      includes attributes "pwd" ||
      (negb (String.eqb inputValue "") &&
       (0 <? String.length inputValue)%nat &&
       includes attributes "hidden") in
    let hasAuthKeyword :=
      existsb (fun keyword => includes attributes keyword) authKeywords in
    let hasAuthPattern :=
      includes attributes "current-password" ||
      includes attributes "new-password" ||
      includes attributes "username" ||
      includes attributes "email" ||
      includes attributes "login" ||
      includes attributes "signin" in
    let hasContext := hasAuthenticationContext input in
    isPasswordField || hasAuthKeyword || hasAuthPattern || hasContext.

Definition authInputs (d : document) : list cursor :=
  filter isAuthInput (select isInput d).

(** Lines 213-246: only ancestors holding both kinds of input are
    considered, and the score is the number of non-hidden inputs. *)
Definition consider (p : cursor) : option nat :=
  if hasEmailUsername p && hasPassword p
  then Some (length (visibleInputs p))
  else None.

(** Lines 61-286, after [cheerio.load]. *)
Definition parseDocument (d : document) : outcome AuthForm :=
  let authInputs := authInputs d in
  let hasPasswordInput := (0 <? length authInputs)%nat in
  if negb hasPasswordInput then Returns negativeResult
  else buildAuthForm consider authInputs.

Definition parseHtmlForAuthForms (load : string -> document)
           (html : string) : outcome AuthForm :=
  parseDocument (load html).

End Permissive.

(** ** Second implementation: keyword AND context *)

Module Strict.

Definition strongAuthTextPatterns : list string :=
  ["sign in"; "signin"; "log in"; "login"; "log in to";
   "enter your password"; "forgot password"; "reset password";
   "create account"; "sign up"; "register"].

Definition strongAuthButtonPatterns : list string :=
  ["sign in"; "signin"; "log in"; "login"; "sign up"; "register"].

(** Lines 390-425. *)
Definition hasAuthenticationContext (input : cursor) : bool :=
  let p := parent input in
  let form := closest (hasTag "form") input in
  let parentText := toLowerCase (textOfOpt p) in
  let formText :=
    match form with
    | Some f => toLowerCase (textContent (here f))
    | None => ""
    end in
  let hasStrongAuthText :=
    existsb (fun pattern =>
               includes parentText pattern || includes formText pattern)
            strongAuthTextPatterns in
  let nearbyButtons := add (findIn isButtonLike p) (findIn isButtonLike form) in
  let buttonText := toLowerCase (textOf nearbyButtons) in
  let hasStrongAuthButton :=
    existsb (fun pattern => includes buttonText pattern)
            strongAuthButtonPatterns in
  hasStrongAuthText && hasStrongAuthButton.

Definition strongAuthKeywords : list string :=
  ["email"; "username"; "user"; "login"; "signin"; "sign-in"].

(** The callback of [allInputs.filter] (lines 437-471). *)
Definition isAuthInput (input : cursor) : bool :=
  let attributes := attributes input in
  if isPasswordTyped input then true
  else
    let hasStrongAuthKeyword :=
      existsb (fun keyword => includes attributes keyword)
              strongAuthKeywords in
    let hasStrongContext := hasAuthenticationContext input in
    hasStrongAuthKeyword && hasStrongContext.

Definition authInputs (d : document) : list cursor :=
  filter isAuthInput (select isInput d).

(** Lines 571-609: an ancestor with an email/username input is
    considered with or without a password input; the former scores 100
    more. *)
Definition consider (p : cursor) : option nat :=
  let isTraditionalAuth := hasEmailUsername p && hasPassword p in
  let isMultipartAuth := hasEmailUsername p && negb (hasPassword p) in
  if isTraditionalAuth || isMultipartAuth
  then
    let totalInputsInParent := length (visibleInputs p) in
    Some (if isTraditionalAuth then totalInputsInParent + 100
          else totalInputsInParent)
  else None.

(** The callback of [authForm.otherInputs.some] (lines 651-661). *)
Definition isEmailUsernameInput (input : OtherInput) : bool :=
  let name := toLowerCase (orDefault (ot_name input) "") in
  let id := toLowerCase (orDefault (ot_id input) "") in
  let placeholder := toLowerCase (orDefault (ot_placeholder input) "") in
  let type := toLowerCase (orDefault (Some (ot_type input)) "") in
  String.eqb type "email" ||
  includes name "email" || includes name "username" ||
  includes name "user" ||
  includes id "email" || includes id "username" || includes id "user" ||
  includes placeholder "email" || includes placeholder "username".

(** Lines 648-677. *)
Definition finalValidation (authForm : AuthForm) : AuthForm :=
  let finalHasPasswordInputs :=
    (0 <? length (passwordInputs authForm))%nat in
  let finalHasEmailUsernameInputs :=
    existsb isEmailUsernameInput (otherInputs authForm) in
  if negb finalHasPasswordInputs && negb finalHasEmailUsernameInputs
  then negativeResult
  else authForm.

(** Lines 427-678, after [cheerio.load]. *)
Definition parseDocument (d : document) : outcome AuthForm :=
  let passwordInputs := select isPasswordSel d in
  let potentialAuthInputs := authInputs d in
  let hasPasswordInputs := (0 <? length passwordInputs)%nat in
  let hasStrongAuthContext := (0 <? length potentialAuthInputs)%nat in
  if negb hasPasswordInputs && negb hasStrongAuthContext
  then Returns negativeResult
  else
    authForm <- buildAuthForm consider potentialAuthInputs ;;
    Returns (finalValidation authForm).

Definition parseHtmlForAuthForms (load : string -> document)
           (html : string) : outcome AuthForm :=
  parseDocument (load html).

End Strict.

(** ** Sample documents *)

Definition el (t : string) (a : list (string * string)) (cs : list node)
  : node := Element t a cs.

(** The tree an HTML parser builds for a fragment: [html], [head], [body]. *)
Definition page (body : list node) : document :=
  [el "html" [] [el "head" [] []; el "body" [] body]].

Definition input (a : list (string * string)) : node := el "input" a [].

(** [<form><input type="email" name="e"><input type="password" name="p"></form>] *)
Definition loginForm : node :=
  el "form" []
     [input [("type", "email"); ("name", "e")];
      input [("type", "password"); ("name", "p")]].

(** ** Notions used to state the properties *)

(** The entries of [l] whose key occurs neither in [seen] nor earlier
    in [l]. *)
Fixpoint firstSeen {A : Type} (same : A -> A -> bool) (seen l : list A)
  : list A :=
  match l with
  | [] => []
  | x :: rest =>
      if existsb (fun y => same y x) seen
      then firstSeen same (seen ++ [x]) rest
      else x :: firstSeen same (seen ++ [x]) rest
  end.

(** The deduplication key of the source: id, name and type. *)
Definition passwordKey (p : PasswordInput)
  : option string * option string * option string :=
  (pw_id p, pw_name p, pw_type p).

Definition otherKey (o : OtherInput)
  : option string * option string * string :=
  (ot_id o, ot_name o, ot_type o).

Definition passwordEntry (a : AuthInput) : bool :=
  isPasswordTyped (ai_element a).


(** The container of the report: [$finalParent]. *)
Definition container (consider : cursor -> option nat)
           (authInputs : list cursor) : option cursor :=
  match authInputs with
  | [] => None
  | first :: _ => finalParent consider first
  end.

Definition markupOf (o : option cursor) : option string :=
  match o with
  | Some fp => truthy (Some (outerHTML (here fp)))
  | None => None
  end.

(** The record assembled by lines 135-283 and 493-646. *)
Definition builtReport (consider : cursor -> option nat)
           (ins : list cursor) : AuthForm :=
  let all := collectInputs 0 [] ins in
  mkAuthForm true
    (match container consider ins with
     | Some fp => if hasTag "form" (here fp) then markupOf (Some fp)
                  else None
     | None => None
     end)
    (markupOf (container consider ins))
    (match container consider ins with
     | Some fp => length (visibleInputs fp)
     | None => 0
     end)
    (uniqueInputs samePassword
       (map passwordDescriptor (filter passwordEntry all)))
    (uniqueInputs sameOther
       (map otherDescriptor
            (filter (fun a => negb (passwordEntry a)) all))).

Definition isElement (n : node) : bool :=
  match n with
  | Element _ _ _ => true
  | _ => false
  end.

(** A document as an HTML parser builds it: its top-level elements are
    [html] elements. *)
Definition htmlRooted (d : document) : bool :=
  forallb (fun n => match tagOf n with
                    | Some t => String.eqb t "html"
                    | None => true
                    end) d.

Definition upward (p : option cursor) : list cursor :=
  match p with
  | Some c => c :: ancestors c
  | None => []
  end.

(** The ancestors the loop looks at: at most [maxDepth] of them, and none
    from the first body, html or head element on. *)
Fixpoint untilTopLevel (l : list cursor) : list cursor :=
  match l with
  | [] => []
  | c :: rest => if isTopLevel c then [] else c :: untilTopLevel rest
  end.

Definition examined (first : cursor) : list cursor :=
  untilTopLevel (firstn maxDepth (ancestors first)).

(** A record is well formed when a negative one is the default record,
    the form markup is the container markup, and no count is given
    without a container. *)
Definition wellFormed (r : AuthForm) : Prop :=
  (hasPasswordInput r = false -> r = negativeResult) /\
  (forall m, formElement r = Some m -> parentElement r = Some m) /\
  (parentElement r = None -> inputCount r = 0 /\ formElement r = None).

(** One turn of the loop body on the pair (bestParent, bestParentScore). *)
Definition turn (consider : cursor -> option nat)
           (st : option cursor * nat) (c : cursor)
  : option cursor * nat :=
  match consider c with
  | Some score =>
      if (snd st <? score)%nat || isNull (fst st) then (Some c, score)
      else st
  | None => st
  end.

(** What the pair holds after the ancestors [l] have been examined: the
    first of the eligible ancestors of highest score. *)
Definition firstBest (consider : cursor -> option nat) (l : list cursor)
           (st : option cursor * nat) : Prop :=
  match fst st with
  | None => forall c, In c l -> consider c = None
  | Some b =>
      exists i,
        nth_error l i = Some b /\ consider b = Some (snd st) /\
        forall j c s, nth_error l j = Some c -> consider c = Some s ->
                      s <= snd st /\ (j < i -> s < snd st)
  end.

(** The identity criterion in the words of the specification: the type
    is email, or the name, id or placeholder contains email, username or
    user. *)
Definition identityKeywords : list string := ["email"; "username"; "user"].

Definition identityShaped (o : OtherInput) : bool :=
  String.eqb (toLowerCase (ot_type o)) "email" ||
  existsb (fun field =>
             existsb (fun k => includes (toLowerCase (orDefault field "")) k)
                     identityKeywords)
          [ot_name o; ot_id o; ot_placeholder o].



(** The type reported for an input that is not a password input, by
    cases on its attributes; an empty attribute counts as absent. *)
Definition reportedType (x : cursor) : string :=
  match truthy (attr "id" x) with
  | Some i => i
  | None => match truthy (attr "type" x) with
            | Some t => t
            | None => "text"
            end
  end.

(** *** More sample documents *)

(** [<input type="password">] directly in the body. *)
Definition passwordOnlyBody : node :=
  el "body" [] [input [("type", "password")]].

Definition passwordOnly : document :=
  [el "html" [] [el "head" [] []; passwordOnlyBody]].


(** Two password inputs without id and name. *)
Definition twoAnonymousPasswords : document :=
  page [input [("type", "password")]; input [("type", "password")]].

(** Twice [<input type="email" id="u" name="u">]. *)
Definition twoIdentical : document :=
  page [input [("type", "email"); ("id", "u"); ("name", "u")];
        input [("type", "email"); ("id", "u"); ("name", "u")]].


(** [<input name="pass">] *)
Definition passNamed : document := page [input [("name", "pass")]].

(** [<input id="" name="email" type="text">] *)
Definition emptyId : document :=
  page [input [("id", ""); ("name", "email"); ("type", "text")]].

(** [<div><input type="email" name="email"></div>] *)
Definition emailStep : document :=
  page [el "div" [] [input [("type", "email"); ("name", "email")]]].

(** An email step inside a [span], with a second input beside the span. *)
Definition emailStepInSpan : document :=
  page [el "div" []
           [el "span" []
               [Text "Sign in";
                input [("type", "email"); ("name", "email")];
                el "button" [] [Text "Login"]];
            input [("type", "text"); ("name", "q")]]].


Fixpoint wrapped (n : nat) (inner : node) : node :=
  match n with
  | 0 => inner
  | S n' => el "div" [] [wrapped n' inner]
  end.

(** A password input below fifteen [div]s, of which only the outermost
    also holds an email input. *)
Definition deepPassword : document :=
  page [el "div" []
           [wrapped 14 (input [("type", "password"); ("name", "p")]);
            input [("type", "email"); ("name", "e")]]].

(** A sign-in form whose only candidate matches by its class. *)
Definition classOnlyLogin : document :=
  page [el "form" []
           [Text "Sign in";
            input [("type", "text"); ("class", "login")];
            el "button" [] [Text "Login"]]].

(** ** The other functions of [htmlParser.ts] *)

(** [getFormSummary] (lines 302-314 and 694-706).  The separator literal
    of the source, a bullet between two spaces, is not an 8-bit string and
    is taken as an argument. *)
Definition getFormSummary (separator : string) (authForm : AuthForm)
  : string :=
  if negb (hasPasswordInput authForm)
  then "No authentication forms detected"
  else
    let summary :=
      ["Found " ++ showNat (length (passwordInputs authForm)) ++
                " authentication input(s)";
       "Parent element contains " ++ showNat (inputCount authForm) ++
                                  " total input(s)";
       "Other inputs: " ++
         join ", " (map (fun input => orDefault (ot_id input) (ot_type input))
                        (otherInputs authForm))]%string in
    join separator summary.

(** [debugAuthDetection] (lines 317-366 and 709-758). *)
Module Debug.

Record InputDetails : Type := mkInputDetails {
  index : nat;
  type : option string;
  name : option string;
  id : option string;
  placeholder : option string;
  class : option string;
  autocomplete : option string
}.

Record DebugInfo : Type := mkDebugInfo {
  totalInputs : nat;
  passwordInputs : list InputDetails;
  potentialAuthInputs : list InputDetails;
  allInputDetails : list InputDetails
}.

Definition inputDetails (index : nat) (input : cursor) : InputDetails :=
  mkInputDetails index (attr "type" input) (attr "name" input)
                 (attr "id" input) (attr "placeholder" input)
                 (attr "class" input) (attr "autocomplete" input).

(** The attributes joined by the loop body (lines 346-353 and 738-745). *)
Definition bagAttributes : list string :=
  ["name"; "id"; "placeholder"; "type"; "class"; "autocomplete"].

Definition attributes (input : cursor) : string :=
  toLowerCase
    (join " " (flat_map (fun k => keepAttr (attr k input)) bagAttributes)).

Definition authKeywords : list string :=
  ["password"; "pass"; "passwd"; "pwd";
   "email"; "username"; "user"; "login"; "signin"; "sign-in"].

Definition hasKeyword (input : cursor) : bool :=
  existsb (fun keyword => includes (attributes input) keyword) authKeywords.

(** The [allInputs.each] loop: the three arrays after all pushes. *)
Fixpoint each (index : nat) (allInputs : list cursor)
  : list InputDetails * list InputDetails * list InputDetails :=
  match allInputs with
  | [] => ([], [], [])
  | input :: rest =>
      let '(passwords, potentials, details) := each (S index) rest in
      let inputDetails := inputDetails index input in
      (if isPasswordTyped input then inputDetails :: passwords
       else passwords,
       if hasKeyword input then inputDetails :: potentials else potentials,
       inputDetails :: details)
  end.

(** The function after [cheerio.load]. *)
Definition debugDocument (d : document) : DebugInfo :=
  let allInputs := select isInput d in
  let '(passwords, potentials, details) := each 0 allInputs in
  mkDebugInfo (length allInputs) passwords potentials details.

Definition debugAuthDetection (load : string -> document) (html : string)
  : DebugInfo :=
  debugDocument (load html).

End Debug.

(** ** The [Authentication] component
    ([components/ResponseCard/index.tsx], lines 158-228) *)

Module Authentication.

Local Open Scope string_scope.

(** The white space and line terminators of JavaScript among the
    characters below 256: what [\s] matches and [trim] removes. *)
Definition isWhiteSpace (c : ascii) : bool :=
  existsb (Nat.eqb (nat_of_ascii c)) [9; 10; 11; 12; 13; 32; 160].

Definition isChar (n : nat) (c : ascii) : bool := Nat.eqb (nat_of_ascii c) n.

Definition lt : nat := 60.
Definition gt : nat := 62.

(** The line feed. *)
Definition nl : string := String (ascii_of_nat 10) EmptyString.

Fixpoint trimStart (s : string) : string :=
  match s with
  | EmptyString => EmptyString
  | String c s' => if isWhiteSpace c then trimStart s' else s
  end.

Fixpoint trimEnd (s : string) : string :=
  match s with
  | EmptyString => EmptyString
  | String c s' =>
      match trimEnd s' with
      | EmptyString => if isWhiteSpace c then EmptyString
                       else String c EmptyString
      | t => String c t
      end
  end.

(** [s.trim()] *)
Definition trim (s : string) : string := trimEnd (trimStart s).

(** [' '.repeat(n)] *)
Fixpoint spaces (n : nat) : string :=
  match n with
  | 0 => EmptyString
  | S n' => String " "%char (spaces n')
  end.

(** [s.endsWith(suffix)] *)
Fixpoint endsWith (s suffix : string) : bool :=
  String.eqb s suffix ||
  match s with
  | EmptyString => false
  | String _ s' => endsWith s' suffix
  end.

Definition pendingText (pending : option string) : string :=
  match pending with
  | Some ws => ws
  | None => EmptyString
  end.

(** [html.replace(/>\s+</g, '><')].  [pending] holds the white space read
    since a [>] that was just copied: it is dropped when a [<] follows and
    copied otherwise. *)
Fixpoint collapseGaps (pending : option string) (s : string) : string :=
  match s with
  | EmptyString => pendingText pending
  | String c s' =>
      let next := if isChar gt c then Some EmptyString else None in
      match pending with
      | None => String c (collapseGaps next s')
      | Some ws =>
          if isWhiteSpace c
          then collapseGaps (Some (ws ++ String c EmptyString)) s'
          else if isChar lt c then String c (collapseGaps None s')
          else ws ++ String c (collapseGaps next s')
      end
  end.

(** [formatted.split(/(<[^>]*>)/)]: the texts between the tags and the
    tags, alternately.  [text] is the text read since the last tag and
    [tag], when set, the part of a tag read since its [<]; a tag that is
    never closed stays in the text. *)
Fixpoint splitTags (text : string) (tag : option string) (s : string)
  : list string :=
  match s with
  | EmptyString => [text ++ pendingText tag]
  | String c s' =>
      match tag with
      | None =>
          if isChar lt c then splitTags text (Some (String c EmptyString)) s'
          else splitTags (text ++ String c EmptyString) None s'
      | Some t =>
          if isChar gt c
          then text :: (t ++ String c EmptyString)
                    :: splitTags EmptyString None s'
          else splitTags text (Some (t ++ String c EmptyString)) s'
      end
  end.

Definition indentSize : nat := 2.

(** [part.endsWith('/>') || part.match(/<(area|base|...|wbr)/i)] *)
Definition isSelfClosing (part : string) : bool :=
  endsWith part "/>" ||
  existsb (fun n => includes (toLowerCase part) ("<" ++ n)) voidElements.

(** The body of the [for] loop on the pair (result, indentLevel);
    [Math.max(0, indentLevel - 1)] is the truncated predecessor. *)
Definition formatPart (st : string * nat) (part : string) : string * nat :=
  let (result, indentLevel) := st in
  if String.prefix "</" part then
    let indentLevel := Nat.max 0 (indentLevel - 1) in
    (result ++ spaces (indentLevel * indentSize) ++ part ++ nl, indentLevel)
  else if String.prefix "<" part && negb (String.prefix "</" part) then
    let result := result ++ spaces (indentLevel * indentSize) ++ part in
    if isSelfClosing part then (result ++ nl, indentLevel)
    else (result ++ nl, S indentLevel)
  else if negb (String.eqb (trim part) "") then
    (result ++ spaces (indentLevel * indentSize) ++ trim part ++ nl,
     indentLevel)
  else st.

(** Lines 158-197. *)
Definition formatHtml (html : string) : string :=
  if String.eqb html "" then "No parent element found"
  else
    let formatted := trim (collapseGaps None html) in
    let parts := splitTags EmptyString None formatted in
    trim (fst (fold_left formatPart parts (EmptyString, 0))).

(** Lines 222-228; the size starts at 11. *)
Definition initialFontSize : nat := 11.

Definition increaseFontSize (prev : nat) : nat := Nat.min (prev + 1) 20.

Definition decreaseFontSize (prev : nat) : nat := Nat.max (prev - 1) 8.

End Authentication.

(** ** The [Home] component ([page.tsx]): the list of submitted URLs *)

Module Home.

Record UrlItem : Type := mkUrlItem {
  id : string;
  url : string
}.

Record Message : Type := mkMessage {
  text : option string;
  error : bool
}.

(** The state the handlers read and set. *)
Record State : Type := mkState {
  input : string;
  urls : list UrlItem;
  message : Message;
  expandedCardId : option string
}.

(** [useState] initial values; the initial message is the empty object. *)
Definition initialState : State :=
  mkState EmptyString [] (mkMessage None false) None.

Section Handlers.

(** [validator.isURL(url, { protocols: ['http', 'https'],
    require_protocol: true, require_valid_protocol: true })] *)
Variable isURL : string -> bool.

(** Lines 104-107 and 179-182. *)
Definition normalize (value : string) : string :=
  let normalizedUrl := Authentication.trim value in
  if negb (String.prefix "http://" normalizedUrl) &&
     negb (String.prefix "https://" normalizedUrl)
  then ("https://" ++ normalizedUrl)%string
  else normalizedUrl.

(** [urls.some(item => item.url === normalizedUrl)] *)
Definition alreadyAdded (urls : list UrlItem) (normalizedUrl : string)
  : bool :=
  existsb (fun item => String.eqb (url item) normalizedUrl) urls.

Definition says (t : string) (e : bool) : Message := mkMessage (Some t) e.

(** Lines 93-165; [newId] is the identifier made from the clock and a
    random number.  Scrolling is not part of the state. *)
Definition handleSubmit (newId : string) (st : State) : State :=
  if String.eqb (Authentication.trim (input st)) "" then
    mkState (input st) (urls st) (says "Please enter a URL." true)
            (expandedCardId st)
  else
    let normalizedUrl := normalize (input st) in
    if negb (isURL normalizedUrl) then
      mkState (input st) (urls st) (says "Please enter a valid URL." true)
              (expandedCardId st)
    else if alreadyAdded (urls st) normalizedUrl then
      mkState (input st) (urls st)
              (says "This URL has already been added." true)
              (expandedCardId st)
    else if (5 <=? length (urls st))%nat then
      mkState (input st) (urls st) (says "5 URLs limit reached." true)
              (expandedCardId st)
    else
      mkState EmptyString (urls st ++ [mkUrlItem newId normalizedUrl])
              (message st) (expandedCardId st).

(** Lines 167-195. *)
Definition handleInputChange (value : string) (st : State) : State :=
  let cleared :=
    match truthy (text (message st)) with
    | Some _ => says "" false
    | None => message st
    end in
  let message :=
    if negb (String.eqb (Authentication.trim value) "") then
      let normalizedUrl := normalize value in
      if isURL normalizedUrl then
        if alreadyAdded (urls st) normalizedUrl
        then says "This URL has already been added." true
        else cleared
      else says "Invalid URL format" true
    else cleared in
  mkState value (urls st) message (expandedCardId st).

(** Lines 197-203. *)
Definition removeUrl (i : string) (st : State) : State :=
  mkState (input st)
          (filter (fun item => negb (String.eqb (id item) i)) (urls st))
          (message st)
          (if optEqb (expandedCardId st) (Some i) then None
           else expandedCardId st).

(** Lines 205-213. *)
Definition handleCardToggle (cardId : string) (st : State) : State :=
  mkState (input st) (urls st) (message st)
          (if optEqb (expandedCardId st) (Some cardId) then None
           else Some cardId).

(** What the user can do: type, submit, remove a card, toggle a card. *)
Inductive event : Type :=
| Change (value : string)
| Submit (newId : string)
| Remove (id : string)
| Toggle (cardId : string).

(** A card is toggled through its own button, so only the cards of the
    list can be. *)
Definition enabled (e : event) (st : State) : bool :=
  match e with
  | Toggle cardId =>
      existsb (fun item => String.eqb (id item) cardId) (urls st)
  | _ => true
  end.

Definition handle (e : event) (st : State) : State :=
  match e with
  | Change value => handleInputChange value st
  | Submit newId => handleSubmit newId st
  | Remove i => removeUrl i st
  | Toggle cardId => handleCardToggle cardId st
  end.

Fixpoint run (events : list event) (st : State) : option State :=
  match events with
  | [] => Some st
  | e :: rest => if enabled e st then run rest (handle e st) else None
  end.

End Handlers.

End Home.

(** ** Notions used to state the properties of these functions *)

(** The text without its white space. *)
Fixpoint withoutSpace (s : string) : string :=
  match s with
  | EmptyString => EmptyString
  | String c s' =>
      if Authentication.isWhiteSpace c then withoutSpace s'
      else String c (withoutSpace s')
  end.

(** No character of [k] is a space. *)
Fixpoint spaceFree (k : string) : bool :=
  match k with
  | EmptyString => true
  | String c k' => negb (Ascii.eqb c " "%char) && spaceFree k'
  end.

(** An entry of the debug report that describes a password input. *)
Definition isPasswordDetail (i : Debug.InputDetails) : bool :=
  optEqb (Debug.type i) (Some "password").

(** The inputs with the index the [each] loop gives them. *)
Definition indexed (k : nat) (l : list cursor) : list (nat * cursor) :=
  combine (seq k (length l)) l.

Definition detailsOf (p : nat * cursor) : Debug.InputDetails :=
  Debug.inputDetails (fst p) (snd p).

(** What the handlers of [Home] keep true of the list of URLs: at most
    five, no URL twice, each with a protocol and accepted by the
    validator. *)
Definition urlsKept (isURL : string -> bool) (urls : list Home.UrlItem)
  : Prop :=
  length urls <= 5 /\
  NoDup (map Home.url urls) /\
  Forall (fun item =>
            (String.prefix "http://" (Home.url item) = true \/
             String.prefix "https://" (Home.url item) = true) /\
            isURL (Home.url item) = true)
         urls.

(** The expanded card, if any, is a card of the list. *)
Definition expandedListed (st : Home.State) : Prop :=
  forall c, Home.expandedCardId st = Some c ->
            In c (map Home.id (Home.urls st)).

(** A sequence of clicks on the two font buttons: [true] for the larger
    size. *)
Definition fontSizeAfter (clicks : list bool) : nat :=
  fold_left (fun (size : nat) (larger : bool) =>
               if larger then Authentication.increaseFontSize size
               else Authentication.decreaseFontSize size)
            clicks Authentication.initialFontSize.

(** * Properties *)

(** ** Lists: [findIndex], [filterIndexed] and the final deduplication *)

Section Unique.

Context {A K : Type}.
Variable same : A -> A -> bool.
Variable key : A -> K.
Hypothesis same_key : forall a b, same a b = true <-> key a = key b.

Lemma same_refl : forall a, same a a = true.
Proof. intro a. apply same_key. reflexivity. Qed.

Lemma findIndex_none (p : A -> bool) (l : list A) :
  findIndex p l = None <-> existsb p l = false.
Proof.
  induction l as [|x l IH]; simpl.
  - tauto.
  - destruct (p x); simpl.
    + split; discriminate.
    + destruct (findIndex p l).
      * split; [discriminate|]. intro H. apply IH in H. discriminate.
      * tauto.
Qed.

Lemma findIndex_bound (p : A -> bool) (l : list A) (i : nat) :
  findIndex p l = Some i -> i < length l.
Proof.
  revert i. induction l as [|x l IH]; simpl; intros i H.
  - discriminate.
  - destruct (p x).
    + inversion H. lia.
    + destruct (findIndex p l) as [j|]; [|discriminate].
      inversion H. specialize (IH j eq_refl). lia.
Qed.

Lemma findIndex_app (p : A -> bool) (a b : list A) :
  findIndex p (a ++ b) =
  match findIndex p a with
  | Some i => Some i
  | None => option_map (fun i => length a + i) (findIndex p b)
  end.
Proof.
  induction a as [|x a IH]; simpl.
  - destruct (findIndex p b); reflexivity.
  - destruct (p x); [reflexivity|].
    rewrite IH. destruct (findIndex p a); [reflexivity|].
    destruct (findIndex p b); reflexivity.
Qed.

Lemma first_at (seen : list A) (x : A) (rest : list A) :
  eqIndex (findIndex (fun i => same i x) (seen ++ x :: rest))
          (length seen)
  = negb (existsb (fun y => same y x) seen).
Proof.
  rewrite findIndex_app.
  destruct (findIndex (fun i => same i x) seen) as [i|] eqn:E.
  - assert (Hi := findIndex_bound _ _ _ E).
    assert (Hex : existsb (fun y => same y x) seen = true).
    { destruct (existsb (fun y => same y x) seen) eqn:E'; [reflexivity|].
      apply findIndex_none in E'. congruence. }
    rewrite Hex. simpl. apply Nat.eqb_neq. lia.
  - apply findIndex_none in E. rewrite E. simpl.
    rewrite same_refl. simpl. rewrite Nat.add_0_r. apply Nat.eqb_refl.
Qed.

Lemma filterIndexed_firstSeen (seen l : list A) :
  filterIndexed
    (fun input index =>
       eqIndex (findIndex (fun i => same i input) (seen ++ l)) index)
    (length seen) l
  = firstSeen same seen l.
Proof.
  revert seen. induction l as [|x rest IH]; intro seen; simpl.
  - reflexivity.
  - rewrite first_at.
    specialize (IH (seen ++ [x])).
    rewrite <- app_assoc in IH. simpl in IH.
    rewrite length_app in IH. simpl in IH.
    rewrite Nat.add_1_r in IH.
    destruct (existsb (fun y => same y x) seen); simpl;
      rewrite IH; reflexivity.
Qed.

(** The deduplication keeps, in order, the first entry of every key. *)
Lemma uniqueInputs_firstSeen (l : list A) :
  uniqueInputs same l = firstSeen same [] l.
Proof. exact (filterIndexed_firstSeen [] l). Qed.

Lemma firstSeen_In (seen l : list A) (x : A) :
  In x (firstSeen same seen l) ->
  In x l /\ existsb (fun y => same y x) seen = false.
Proof.
  revert seen. induction l as [|a rest IH]; intros seen H; simpl in *.
  - contradiction.
  - destruct (existsb (fun y => same y a) seen) eqn:E.
    + apply IH in H. destruct H as [H1 H2].
      rewrite existsb_app in H2. apply orb_false_iff in H2. tauto.
    + destruct H as [H|H].
      * subst. tauto.
      * apply IH in H. destruct H as [H1 H2].
        rewrite existsb_app in H2. apply orb_false_iff in H2. tauto.
Qed.

Lemma firstSeen_NoDup (seen l : list A) :
  NoDup (map key (firstSeen same seen l)).
Proof.
  revert seen. induction l as [|a rest IH]; intro seen; simpl.
  - constructor.
  - destruct (existsb (fun y => same y a) seen); [apply IH|].
    simpl. constructor; [|apply IH].
    intro Hin. apply in_map_iff in Hin. destruct Hin as [b [Hk Hb]].
    apply firstSeen_In in Hb. destruct Hb as [_ Hb].
    rewrite existsb_app in Hb. apply orb_false_iff in Hb.
    destruct Hb as [_ Hb]. simpl in Hb. rewrite orb_false_r in Hb.
    assert (same a b = true) by (apply same_key; congruence).
    congruence.
Qed.

Lemma firstSeen_snoc (seen l : list A) (x : A) :
  firstSeen same seen (l ++ [x]) =
  firstSeen same seen l ++
  (if existsb (fun y => same y x) (seen ++ l) then [] else [x]).
Proof.
  revert seen. induction l as [|a rest IH]; intro seen; simpl.
  - rewrite app_nil_r.
    destruct (existsb (fun y => same y x) seen); reflexivity.
  - specialize (IH (seen ++ [a])). rewrite <- app_assoc in IH.
    simpl in IH.
    destruct (existsb (fun y => same y a) seen); simpl; rewrite IH;
      reflexivity.
Qed.

Lemma firstSeen_keeps (seen pre post : list A) (x : A) :
  existsb (fun y => same y x) (seen ++ pre) = false ->
  In x (firstSeen same seen (pre ++ x :: post)).
Proof.
  revert seen. induction pre as [|a pre IH]; intros seen H; simpl.
  - rewrite app_nil_r in H. rewrite H. left. reflexivity.
  - assert (H' : existsb (fun y => same y x) ((seen ++ [a]) ++ pre) = false)
      by (rewrite <- app_assoc; exact H).
    destruct (existsb (fun y => same y a) seen);
      [|right]; apply IH; exact H'.
Qed.

Lemma uniqueInputs_NoDup (l : list A) :
  NoDup (map key (uniqueInputs same l)).
Proof. rewrite uniqueInputs_firstSeen. apply firstSeen_NoDup. Qed.

Lemma uniqueInputs_In (l : list A) (x : A) :
  In x (uniqueInputs same l) -> In x l.
Proof.
  rewrite uniqueInputs_firstSeen. intro H.
  apply firstSeen_In in H. tauto.
Qed.

Lemma uniqueInputs_snoc (l : list A) (x : A) :
  uniqueInputs same (l ++ [x]) =
  uniqueInputs same l ++
  (if existsb (fun y => same y x) l then [] else [x]).
Proof. rewrite !uniqueInputs_firstSeen. apply (firstSeen_snoc [] l x). Qed.

Lemma uniqueInputs_keeps (pre post : list A) (x : A) :
  existsb (fun y => same y x) pre = false ->
  In x (uniqueInputs same (pre ++ x :: post)).
Proof.
  intro H. rewrite uniqueInputs_firstSeen.
  apply (firstSeen_keeps [] pre post x). exact H.
Qed.

Lemma firstSeen_covers (seen l : list A) (x : A) :
  In x l ->
  (exists z, In z seen /\ key z = key x) \/
  (exists y, In y (firstSeen same seen l) /\ key y = key x).
Proof.
  revert seen. induction l as [|a rest IH]; intros seen H; simpl in *.
  - contradiction.
  - destruct (existsb (fun y => same y a) seen) eqn:E.
    + destruct H as [H|H].
      * subst a. left. apply existsb_exists in E.
        destruct E as [z [Hz Hs]]. exists z. split; [exact Hz|].
        apply same_key. exact Hs.
      * destruct (IH (seen ++ [a]) H) as [[z [Hz Hk]]|Hy]; [|right; exact Hy].
        apply in_app_or in Hz. destruct Hz as [Hz|[Hz|[]]].
        -- left. exists z. auto.
        -- subst z. left. apply existsb_exists in E.
           destruct E as [w [Hw Hs]]. exists w. split; [exact Hw|].
           apply same_key in Hs. congruence.
    + destruct H as [H|H].
      * subst a. right. exists x. simpl. auto.
      * destruct (IH (seen ++ [a]) H) as [[z [Hz Hk]]|[y [Hy Hk]]].
        -- apply in_app_or in Hz. destruct Hz as [Hz|[Hz|[]]].
           ++ left. exists z. auto.
           ++ subst z. right. exists a. simpl. auto.
        -- right. exists y. simpl. auto.
Qed.

Lemma uniqueInputs_covers (l : list A) (x : A) :
  In x l -> exists y, In y (uniqueInputs same l) /\ key y = key x.
Proof.
  intro H. rewrite uniqueInputs_firstSeen.
  destruct (firstSeen_covers [] l x H) as [[z [[] _]]|Hy]. exact Hy.
Qed.

End Unique.

(** ** Comparisons and keys *)

Lemma optEqb_eq (a b : option string) : optEqb a b = true <-> a = b.
Proof.
  destruct a as [x|], b as [y|]; simpl; split; intro H;
    try discriminate; try reflexivity.
  - apply String.eqb_eq in H. congruence.
  - inversion H. apply String.eqb_refl.
Qed.

Lemma samePassword_key (a b : PasswordInput) :
  samePassword a b = true <-> passwordKey a = passwordKey b.
Proof.
  unfold samePassword, passwordKey.
  rewrite !andb_true_iff, !optEqb_eq.
  split; [intros [[H1 H2] H3]; congruence|].
  intro H. inversion H. auto.
Qed.

Lemma sameOther_key (a b : OtherInput) :
  sameOther a b = true <-> otherKey a = otherKey b.
Proof.
  unfold sameOther, otherKey.
  rewrite !andb_true_iff, !optEqb_eq, String.eqb_eq.
  split; [intros [[H1 H2] H3]; congruence|].
  intro H. inversion H. auto.
Qed.

(** ** The [each] and [forEach] loops *)

Lemma categorize_spec (all : list AuthInput) :
  categorize all =
  (map passwordDescriptor (filter passwordEntry all),
   map otherDescriptor (filter (fun a => negb (passwordEntry a)) all)).
Proof.
  induction all as [|a rest IH]; simpl.
  - reflexivity.
  - rewrite IH. unfold passwordEntry.
    destruct (isPasswordTyped (ai_element a)); reflexivity.
Qed.

Lemma collectInputs_In (ins : list cursor) :
  forall index processed a,
    In a (collectInputs index processed ins) ->
    exists x, In x ins /\ a = authInputOf x.
Proof.
  induction ins as [|y rest IH]; intros index processed a H; simpl in H.
  - contradiction.
  - destruct (has processed (inputSelector index y)).
    + apply IH in H. destruct H as [x [Hx Ha]]. exists x. simpl. tauto.
    + destruct H as [H|H].
      * exists y. simpl. auto.
      * apply IH in H. destruct H as [x [Hx Ha]]. exists x. simpl. tauto.
Qed.

Lemma collectInputs_first (x : cursor) (rest : list cursor) :
  exists more, collectInputs 0 [] (x :: rest) = authInputOf x :: more.
Proof. simpl. eexists. reflexivity. Qed.


(** ** The fields of the report *)

(** Building the report never throws: [allAuthInputs[0]] is read only
    when the list is not empty. *)
Lemma buildAuthForm_spec (consider : cursor -> option nat)
      (ins : list cursor) :
  buildAuthForm consider ins = Returns (builtReport consider ins).
Proof.
  unfold buildAuthForm, builtReport. rewrite categorize_spec.
  destruct ins as [|x rest].
  - reflexivity.
  - destruct (collectInputs_first x rest) as [more E].
    rewrite E. simpl.
    destruct (finalParent consider x); reflexivity.
Qed.

Lemma outerHTML_element (t : string) (a : list (string * string))
      (cs : list node) :
  exists s, outerHTML (Element t a cs) = String "<"%char s.
Proof. simpl. eexists. reflexivity. Qed.

(** ** The tree: induction and the place of an element *)

Lemma node_induction (P : node -> Prop) :
  (forall s, P (Text s)) ->
  (forall s, P (Comment s)) ->
  (forall t a cs, Forall P cs -> P (Element t a cs)) ->
  forall n, P n.
Proof.
  intros P_text P_comment P_element. fix IH 1. intro n.
  destruct n as [s|s|t a cs].
  - apply P_text.
  - apply P_comment.
  - apply P_element. induction cs as [|k cs IHcs]; constructor.
    + apply IH.
    + exact IHcs.
Qed.

Lemma subtree_element (ups : list node) (rpath : list nat) (t : string)
      (a : list (string * string)) (cs : list node) :
  subtree ups rpath (Element t a cs) =
  mkCursor (Element t a cs) rpath ups ::
  forest (Element t a cs :: ups) rpath 0 cs.
Proof.
  assert (H : forall (n0 : node) (l : list node) (i : nat),
             (fix kids (i : nat) (l : list node) {struct l} : list cursor :=
                match l with
                | [] => []
                | k :: l' =>
                    subtree (n0 :: ups) (i :: rpath) k ++ kids (S i) l'
                end) i l = forest (n0 :: ups) rpath i l).
  { intros n0 l. induction l as [|k l IH]; intro i; simpl.
    - reflexivity.
    - rewrite IH. reflexivity. }
  simpl. f_equal. apply H.
Qed.

(** Every element of a subtree lies below the ancestors of its root. *)
Lemma subtree_above (n : node) :
  forall ups rpath c,
    In c (subtree ups rpath n) ->
    c = mkCursor n rpath ups \/
    exists extra, above c = extra ++ n :: ups.
Proof.
  induction n as [s|s|t a cs IH] using node_induction;
    intros ups rpath c H.
  - contradiction.
  - contradiction.
  - rewrite subtree_element in H. destruct H as [H|H]; [left; auto|].
    right. revert H. generalize (Element t a cs) as n0. intro n0.
    generalize 0.
    induction IH as [|k cs' Hk _ IHcs]; intros i H; simpl in H.
    + contradiction.
    + apply in_app_or in H. destruct H as [H|H].
      * apply Hk in H. destruct H as [H|[extra H]].
        -- subst c. exists []. reflexivity.
        -- exists (extra ++ [k]). rewrite H, <- app_assoc. reflexivity.
      * apply (IHcs (S i)). exact H.
Qed.

Lemma input_has_parent (d : document) (c : cursor) :
  htmlRooted d = true ->
  In c (select isInput d) ->
  exists p, parent c = Some p.
Proof.
  unfold select, htmlRooted. intros Hroot Hin.
  apply filter_In in Hin. destruct Hin as [Hin Htag].
  revert Hin. generalize 0. induction d as [|n d IH]; intros i Hin.
  - contradiction.
  - simpl in Hroot. apply andb_true_iff in Hroot.
    destruct Hroot as [Hn Hd]. simpl in Hin.
    apply in_app_or in Hin. destruct Hin as [Hin|Hin].
    + apply subtree_above in Hin. destruct Hin as [Hc|[extra Hc]].
      * subst c. simpl in Htag. destruct n as [s|s|t a cs]; simpl in *;
          try discriminate.
        apply String.eqb_eq in Hn. subst t. discriminate.
      * unfold parent. rewrite Hc.
        destruct extra; simpl; eexists; reflexivity.
    + apply (IH Hd (S i)). exact Hin.
Qed.

(** ** The ancestor walk as a scan of the examined ancestors *)

Lemma upward_parent (c : cursor) : upward (parent c) = ancestors c.
Proof.
  unfold upward, parent, ancestors.
  destruct (above c) as [|p ups]; reflexivity.
Qed.

Lemma ancestors_depth (c : cursor) :
  forall k a, nth_error (ancestors c) k = Some a ->
              length (above c) = length (above a) + S k.
Proof.
  unfold ancestors. generalize (path c).
  induction (above c) as [|p ups IH]; intros rpath k a H.
  - destruct k; discriminate.
  - destruct k as [|k]; simpl in H.
    + inversion H. simpl. lia.
    + apply IH in H. simpl. lia.
Qed.

Lemma untilTopLevel_nth (l : list cursor) :
  forall k c, nth_error (untilTopLevel l) k = Some c ->
              nth_error l k = Some c /\ isTopLevel c = false.
Proof.
  induction l as [|x l IH]; intros k c H; simpl in H.
  - destruct k; discriminate.
  - destruct (isTopLevel x) eqn:E.
    + destruct k; discriminate.
    + destruct k as [|k]; simpl in *.
      * inversion H. subst. auto.
      * apply IH. exact H.
Qed.

Lemma examined_nth (first : cursor) (k : nat) (c : cursor) :
  nth_error (examined first) k = Some c ->
  k < maxDepth /\ nth_error (ancestors first) k = Some c /\
  isTopLevel c = false.
Proof.
  unfold examined. intro H. apply untilTopLevel_nth in H.
  destruct H as [H Htop].
  assert (Hk : k < length (firstn maxDepth (ancestors first))).
  { apply nth_error_Some. congruence. }
  rewrite length_firstn in Hk.
  assert (k < maxDepth) by lia.
  rewrite nth_error_firstn in H.
  destruct (Nat.ltb_spec k maxDepth); [|lia]. auto.
Qed.

Section WalkFacts.

Variable consider : cursor -> option nat.

Lemma walk_scan (remaining : nat) :
  forall p best score,
    walk consider remaining p best score =
    fst (fold_left (turn consider) (untilTopLevel (firstn remaining (upward p)))
                   (best, score)).
Proof.
  induction remaining as [|n IH]; intros p best score; simpl.
  - reflexivity.
  - destruct p as [c|]; simpl; [|reflexivity].
    destruct (isTopLevel c); simpl; [reflexivity|].
    rewrite <- upward_parent. unfold turn at 2. simpl.
    destruct (consider c) as [s|]; [|apply IH].
    destruct ((score <? s)%nat || isNull best); apply IH.
Qed.

Lemma firstBest_turn (l : list cursor) (st : option cursor * nat)
      (c : cursor) :
  firstBest consider l st -> firstBest consider (l ++ [c]) (turn consider st c).
Proof.
  destruct st as [best score]. unfold firstBest, turn. simpl.
  intro H. destruct (consider c) as [s|] eqn:Ec.
  - destruct ((score <? s)%nat || isNull best) eqn:Eu; simpl.
    + exists (length l). split; [|split].
      * rewrite nth_error_app2, Nat.sub_diag by lia. reflexivity.
      * exact Ec.
      * intros j x s' Hj Hx.
        destruct (Nat.lt_ge_cases j (length l)) as [Hlt|Hge].
        -- rewrite nth_error_app1 in Hj by exact Hlt.
           destruct best as [b|].
           ++ simpl in Eu. rewrite orb_false_r in Eu.
              apply Nat.ltb_lt in Eu.
              destruct H as [i [_ [_ H]]].
              destruct (H j x s' Hj Hx). lia.
           ++ apply nth_error_In in Hj. rewrite (H x Hj) in Hx.
              discriminate.
        -- rewrite nth_error_app2 in Hj by exact Hge.
           destruct (j - length l) as [|m] eqn:Em; simpl in Hj.
           ++ inversion Hj. subst x. rewrite Ec in Hx. inversion Hx.
              split; [lia|]. intro. lia.
           ++ destruct m; discriminate.
    + apply orb_false_iff in Eu. destruct Eu as [Eu Hn].
      destruct best as [b|]; [|discriminate]. simpl.
      apply Nat.ltb_ge in Eu.
      destruct H as [i [Hi [Hb H]]].
      assert (Hlt : i < length l) by (apply nth_error_Some; congruence).
      exists i. split; [|split].
      * rewrite nth_error_app1 by exact Hlt. exact Hi.
      * exact Hb.
      * intros j x s' Hj Hx.
        destruct (Nat.lt_ge_cases j (length l)) as [Hjl|Hge].
        -- rewrite nth_error_app1 in Hj by exact Hjl. eauto.
        -- rewrite nth_error_app2 in Hj by exact Hge.
           destruct (j - length l) as [|m] eqn:Em; simpl in Hj.
           ++ inversion Hj. subst x. rewrite Ec in Hx. inversion Hx.
              split; [lia|]. intro. lia.
           ++ destruct m; discriminate.
  - destruct best as [b|]; simpl in *.
    + destruct H as [i [Hi [Hb H]]].
      assert (Hlt : i < length l) by (apply nth_error_Some; congruence).
      exists i. split; [|split].
      * rewrite nth_error_app1 by exact Hlt. exact Hi.
      * exact Hb.
      * intros j x s' Hj Hx.
        destruct (Nat.lt_ge_cases j (length l)) as [Hjl|Hge].
        -- rewrite nth_error_app1 in Hj by exact Hjl. eauto.
        -- rewrite nth_error_app2 in Hj by exact Hge.
           destruct (j - length l) as [|m] eqn:Em; simpl in Hj.
           ++ inversion Hj. subst x. congruence.
           ++ destruct m; discriminate.
    + intros x Hx. apply in_app_or in Hx. destruct Hx as [Hx|[Hx|[]]].
      * auto.
      * subst. exact Ec.
Qed.

Lemma firstBest_scan (l2 : list cursor) :
  forall l1 st, firstBest consider l1 st ->
                firstBest consider (l1 ++ l2) (fold_left (turn consider) l2 st).
Proof.
  induction l2 as [|c l2 IH]; intros l1 st H; simpl.
  - rewrite app_nil_r. exact H.
  - replace (l1 ++ c :: l2) with ((l1 ++ [c]) ++ l2)
      by (rewrite <- app_assoc; reflexivity).
    apply IH. apply firstBest_turn. exact H.
Qed.

Lemma walk_firstBest (first : cursor) :
  firstBest consider (examined first)
            (fold_left (turn consider) (examined first) (None, 0)).
Proof.
  apply (firstBest_scan (examined first) [] (None, 0)).
  simpl. intros c [].
Qed.

Lemma walk_examined (first : cursor) :
  walk consider maxDepth (parent first) None 0 =
  fst (fold_left (turn consider) (examined first) (None, 0)).
Proof.
  rewrite walk_scan, upward_parent. reflexivity.
Qed.

(** The loop returns the first examined ancestor of highest score. *)
Lemma walk_selects (first b : cursor) :
  walk consider maxDepth (parent first) None 0 = Some b ->
  exists i s,
    nth_error (examined first) i = Some b /\ consider b = Some s /\
    forall j c s', nth_error (examined first) j = Some c ->
                   consider c = Some s' ->
                   s' <= s /\ (j < i -> s' < s).
Proof.
  rewrite walk_examined. intro H.
  assert (F := walk_firstBest first). unfold firstBest in F.
  rewrite H in F. destruct F as [i F].
  exists i, (snd (fold_left (turn consider) (examined first) (None, 0))). exact F.
Qed.

(** It returns nothing exactly when no examined ancestor is eligible. *)
Lemma walk_none (first : cursor) :
  walk consider maxDepth (parent first) None 0 = None <->
  forall c, In c (examined first) -> consider c = None.
Proof.
  rewrite walk_examined.
  assert (F := walk_firstBest first). unfold firstBest in F.
  destruct (fst (fold_left (turn consider) (examined first) (None, 0))) as [b|].
  - split; [discriminate|]. intro H.
    destruct F as [i [Hi [Hb _]]]. apply nth_error_In in Hi.
    rewrite (H b Hi) in Hb. discriminate.
  - split; auto.
Qed.

End WalkFacts.

(** ** The shape of the result of each implementation *)

Lemma permissive_result (d : document) :
  Permissive.parseDocument d =
  Returns (match Permissive.authInputs d with
           | [] => negativeResult
           | _ :: _ =>
               builtReport Permissive.consider (Permissive.authInputs d)
           end).
Proof.
  unfold Permissive.parseDocument.
  destruct (Permissive.authInputs d) as [|x rest] eqn:E.
  - reflexivity.
  - simpl negb. cbv iota. apply buildAuthForm_spec.
Qed.

Lemma strict_result (d : document) :
  Strict.parseDocument d = Returns negativeResult \/
  Strict.parseDocument d =
    Returns (builtReport Strict.consider (Strict.authInputs d)) /\
  Strict.authInputs d <> [] /\
  Strict.finalValidation (builtReport Strict.consider (Strict.authInputs d))
  = builtReport Strict.consider (Strict.authInputs d).
Proof.
  unfold Strict.parseDocument.
  destruct (negb (0 <? length (select isPasswordSel d))%nat &&
            negb (0 <? length (Strict.authInputs d))%nat); [left; reflexivity|].
  rewrite buildAuthForm_spec. simpl bind.
  destruct (Strict.authInputs d) as [|x rest] eqn:E.
  - left. reflexivity.
  - set (b := builtReport Strict.consider (x :: rest)).
    assert (H : Strict.finalValidation b = negativeResult \/
                Strict.finalValidation b = b).
    { unfold Strict.finalValidation.
      match goal with
      | |- context [if ?c then _ else _] => destruct c
      end; auto. }
    destruct H as [H|H]; rewrite H.
    + left. reflexivity.
    + right. split; [reflexivity|]. split; [discriminate|reflexivity].
Qed.


Lemma built_other_from (consider : cursor -> option nat)
      (ins : list cursor) (o : OtherInput) :
  In o (otherInputs (builtReport consider ins)) ->
  exists x, In x ins /\ isPasswordTyped x = false /\
            o = otherDescriptor (authInputOf x).
Proof.
  simpl. intro H. apply (uniqueInputs_In sameOther otherKey) in H;
    [|exact sameOther_key].
  apply in_map_iff in H. destruct H as [a [Hp Ha]].
  apply filter_In in Ha. destruct Ha as [Ha Hpw].
  apply collectInputs_In in Ha. destruct Ha as [x [Hx Hax]].
  subst a. exists x. unfold passwordEntry in Hpw. simpl in Hpw.
  apply negb_true_iff in Hpw. auto.
Qed.

(** Only a text node has empty markup, and it holds no inputs. *)
Lemma no_markup_no_inputs (fp : cursor) :
  markupOf (Some fp) = None -> length (visibleInputs fp) = 0.
Proof.
  unfold markupOf, truthy, visibleInputs, find.
  destruct (here fp) as [s|s|t a cs]; try reflexivity.
  destruct (outerHTML_element t a cs) as [m E]. rewrite E.
  simpl. discriminate.
Qed.

Lemma negativeResult_wellFormed : wellFormed negativeResult.
Proof.
  unfold wellFormed. simpl. repeat split; auto; discriminate.
Qed.

Lemma builtReport_wellFormed (consider : cursor -> option nat)
      (ins : list cursor) :
  wellFormed (builtReport consider ins).
Proof.
  unfold wellFormed, builtReport. simpl.
  split; [discriminate|].
  destruct (container consider ins) as [fp|].
  - split.
    + intros m. destruct (hasTag "form" (here fp)); [auto|discriminate].
    + intro H. split; [apply no_markup_no_inputs; exact H|].
      destruct (hasTag "form" (here fp)); [exact H|reflexivity].
  - simpl. split; [discriminate|auto].
Qed.

(** * The claims *)

(** ** C1: the parser always returns a well-formed record *)

(** C1.  For every loader and every input string, both implementations of
    [parseHtmlForAuthForms] return (they never throw) a well-formed
    [AuthForm]; when no candidate input is detected the record is the
    negative default. *)
Theorem parse_returns_wellformed_report :
  forall (load : string -> document) (html : string),
    (exists r, Permissive.parseHtmlForAuthForms load html = Returns r /\
               wellFormed r /\
               (Permissive.authInputs (load html) = [] ->
                r = negativeResult)) /\
    (exists r, Strict.parseHtmlForAuthForms load html = Returns r /\
               wellFormed r /\
               (Strict.authInputs (load html) = [] ->
                r = negativeResult)).
Proof.
  intros load html. split.
  - unfold Permissive.parseHtmlForAuthForms.
    rewrite permissive_result. eexists. split; [reflexivity|].
    destruct (Permissive.authInputs (load html)) as [|x rest].
    + split; [apply negativeResult_wellFormed|reflexivity].
    + split; [apply builtReport_wellFormed|discriminate].
  - unfold Strict.parseHtmlForAuthForms.
    destruct (strict_result (load html)) as [H|[H [Hne _]]]; rewrite H;
      eexists; (split; [reflexivity|]).
    + split; [apply negativeResult_wellFormed|reflexivity].
    + split; [apply builtReport_wellFormed|]. intro. contradiction.
Qed.

(** On a page without inputs the default record comes back. *)
Lemma parse_returns_wellformed_report_witness :
  Permissive.authInputs (page []) = [] /\
  Strict.authInputs (page []) = [] /\
  Permissive.parseHtmlForAuthForms (fun _ => page []) "" =
    Returns negativeResult /\
  Strict.parseHtmlForAuthForms (fun _ => page []) "" =
    Returns negativeResult.
Proof.
  split; [reflexivity|]. split; [reflexivity|].
  destruct (parse_returns_wellformed_report (fun _ => page []) "")
    as [[r1 [H1 [_ N1]]] [r2 [H2 [_ N2]]]].
  split.
  - rewrite H1. f_equal. apply N1. reflexivity.
  - rewrite H2. f_equal. apply N2. reflexivity.
Defined.

(** ** C2: password inputs are reported *)

Lemma isPasswordTyped_iff (x : cursor) :
  isPasswordTyped x = true <-> attr "type" x = Some "password".
Proof. unfold isPasswordTyped. apply optEqb_eq. Qed.







(** ** C3: the final acceptance gate *)

Lemma orDefault_same (s : string) : orDefault (Some s) "" = s.
Proof.
  unfold orDefault, truthy. destruct (String.eqb s "") eqn:E.
  - apply String.eqb_eq in E. subst. reflexivity.
  - reflexivity.
Qed.

(** The test of the source is at least as strict as the criterion of the
    specification: it does not look for "user" in the placeholder. *)
Lemma isEmailUsernameInput_identityShaped (o : OtherInput) :
  Strict.isEmailUsernameInput o = true -> identityShaped o = true.
Proof.
  unfold Strict.isEmailUsernameInput, identityShaped, identityKeywords.
  rewrite orDefault_same. simpl existsb.
  rewrite ?orb_false_r, !orb_true_iff. tauto.
Qed.

Lemma strict_gate (b : AuthForm) :
  hasPasswordInput b = true ->
  Strict.finalValidation b = b ->
  passwordInputs b <> [] \/
  exists o, In o (otherInputs b) /\ Strict.isEmailUsernameInput o = true.
Proof.
  unfold Strict.finalValidation. intros Hpos H.
  destruct (passwordInputs b) as [|p ps] eqn:Ep.
  - right. simpl in H.
    destruct (existsb Strict.isEmailUsernameInput (otherInputs b)) eqn:Eo.
    + apply existsb_exists in Eo. exact Eo.
    + simpl in H. rewrite <- H in Hpos. discriminate.
  - left. discriminate.
Qed.

(** C3 (as amended).  In the second implementation the report is positive
    only if the deduplicated password list is not empty or the
    deduplicated list of other inputs holds an entry that passes the test
    of the source, hence the identity criterion of the specification; the
    gate is applied to every report built from candidate inputs. *)
Theorem strict_report_positive_only_through_gate :
  forall d : document,
    exists r,
      Strict.parseDocument d = Returns r /\
      (r = negativeResult \/
       r = Strict.finalValidation
             (builtReport Strict.consider (Strict.authInputs d))) /\
      (hasPasswordInput r = true ->
       passwordInputs r <> [] \/
       exists o, In o (otherInputs r) /\
                 Strict.isEmailUsernameInput o = true /\
                 identityShaped o = true).
Proof.
  intro d. destruct (strict_result d) as [H|[H [_ Hgate]]]; rewrite H;
    eexists; (split; [reflexivity|]).
  - split; [left; reflexivity|]. simpl. discriminate.
  - split; [right; symmetry; exact Hgate|]. intro Hpos.
    destruct (strict_gate _ Hpos Hgate) as [Hp|[o [Ho Hid]]].
    + left. exact Hp.
    + right. exists o. split; [exact Ho|]. split; [exact Hid|].
      apply isEmailUsernameInput_identityShaped. exact Hid.
Qed.

(** A sign-in form whose only candidate matches by its class: the gate
    turns the report built from it into the negative record. *)
Lemma strict_report_positive_only_through_gate_witness :
  length (Strict.authInputs classOnlyLogin) = 1 /\
  Strict.parseDocument classOnlyLogin = Returns negativeResult.
Proof.
  split; [vm_compute; reflexivity|].
  destruct (strict_report_positive_only_through_gate classOnlyLogin)
    as [r [Hr [Hcase Hgate]]].
  rewrite Hr. f_equal.
  destruct Hcase as [Hn|Hb]; [exact Hn|].
  rewrite Hb. vm_compute. reflexivity.
Defined.

(** C3 (as stated) fails: the first implementation has no final gate and
    reports a page whose only input is named "pass" as positive, with no
    password input and no identity-shaped other input. *)
Lemma permissive_report_positive_without_gate :
  exists r,
    Permissive.parseDocument passNamed = Returns r /\
    hasPasswordInput r = true /\
    passwordInputs r = [] /\
    existsb identityShaped (otherInputs r) = false.
Proof.
  eexists. split; [vm_compute; reflexivity|].
  split; [reflexivity|]. split; reflexivity.
Qed.

(** ** C4: which ancestors are eligible *)

(** C4 (as amended).  An ancestor holding both an email/username-shaped
    input and a password input is eligible in both implementations.  An
    ancestor holding an email/username-shaped input and no password input
    is eligible in the second (strict) implementation, with the number of
    its non-hidden inputs as score, and is not eligible in the first
    (permissive) one.  The ancestor returned by the walk is always an
    eligible one. *)
Theorem multipart_eligible_in_strict_only :
  forall p : cursor,
    (Permissive.consider p <> None <->
     hasEmailUsername p = true /\ hasPassword p = true) /\
    (Strict.consider p <> None <-> hasEmailUsername p = true) /\
    (hasEmailUsername p = true -> hasPassword p = false ->
     Permissive.consider p = None /\
     Strict.consider p = Some (length (visibleInputs p))) /\
    (forall first,
        walk Permissive.consider maxDepth (parent first) None 0 = Some p ->
        hasEmailUsername p = true /\ hasPassword p = true) /\
    (forall first,
        walk Strict.consider maxDepth (parent first) None 0 = Some p ->
        hasEmailUsername p = true).
Proof.
  intro p.
  assert (HP : Permissive.consider p <> None <->
               hasEmailUsername p = true /\ hasPassword p = true).
  { unfold Permissive.consider.
    destruct (hasEmailUsername p), (hasPassword p); simpl;
      split; intro H; try (destruct H; discriminate); try tauto;
      try discriminate; split; reflexivity. }
  assert (HS : Strict.consider p <> None <-> hasEmailUsername p = true).
  { unfold Strict.consider.
    destruct (hasEmailUsername p), (hasPassword p); simpl;
      split; intro H; try discriminate; try tauto; reflexivity. }
  split; [exact HP|]. split; [exact HS|]. split; [|split].
  - intros HE HPw. unfold Permissive.consider, Strict.consider.
    rewrite HE, HPw. simpl. split; reflexivity.
  - intros first Hw. apply walk_selects in Hw.
    destruct Hw as [i [s [_ [Hc _]]]]. apply HP. congruence.
  - intros first Hw. apply walk_selects in Hw.
    destruct Hw as [i [s [_ [Hc _]]]]. apply HS. congruence.
Qed.

(** C4 (as stated) fails.  The [div] around a lone email input is not
    eligible in the permissive implementation and is eligible in the
    strict one; on a page where such an email step sits in a [span] beside
    another input, the permissive implementation falls back to the [span]
    while the strict one selects the enclosing [div]. *)
Lemma multipart_container_is_strict_behaviour :
  (exists p,
      nth_error (select (hasTag "div") emailStep) 0 = Some p /\
      hasEmailUsername p = true /\ hasPassword p = false /\
      Permissive.consider p = None /\ Strict.consider p = Some 1) /\
  (exists rp rs span div,
      Permissive.parseDocument emailStepInSpan = Returns rp /\
      Strict.parseDocument emailStepInSpan = Returns rs /\
      nth_error (select (hasTag "span") emailStepInSpan) 0 = Some span /\
      nth_error (select (hasTag "div") emailStepInSpan) 0 = Some div /\
      parentElement rp = Some (outerHTML (here span)) /\
      parentElement rs = Some (outerHTML (here div))).
Proof.
  split.
  - eexists. split; [vm_compute; reflexivity|].
    repeat split; vm_compute; reflexivity.
  - eexists. eexists. eexists. eexists.
    split; [vm_compute; reflexivity|].
    split; [vm_compute; reflexivity|].
    split; [vm_compute; reflexivity|].
    split; [vm_compute; reflexivity|].
    split; vm_compute; reflexivity.
Qed.

(** ** C5, C6 and C10: the two lists of the report *)

Lemma permissive_cases (d : document) :
  exists r,
    Permissive.parseDocument d = Returns r /\
    (r = negativeResult \/
     r = builtReport Permissive.consider (Permissive.authInputs d)).
Proof.
  rewrite permissive_result. eexists. split; [reflexivity|].
  destruct (Permissive.authInputs d); auto.
Qed.

Lemma strict_cases (d : document) :
  exists r,
    Strict.parseDocument d = Returns r /\
    (r = negativeResult \/
     r = builtReport Strict.consider (Strict.authInputs d)).
Proof.
  destruct (strict_result d) as [H|[H _]]; rewrite H; eexists; eauto.
Qed.

Section ReportLists.

Variable consider : cursor -> option nat.
Variable ins : list cursor.
Variable r : AuthForm.
Hypothesis r_cases : r = negativeResult \/ r = builtReport consider ins.


Lemma report_other_from :
  Forall (fun o =>
            exists x, In x ins /\ attr "type" x <> Some "password" /\
                      o = otherDescriptor (authInputOf x))
         (otherInputs r).
Proof.
  destruct r_cases as [H|H]; rewrite H; [constructor|].
  apply Forall_forall. intros o Ho.
  apply built_other_from in Ho. destruct Ho as [x [Hx [Hpw Hd]]].
  exists x. split; [exact Hx|]. split; [|exact Hd].
  intro Ht. apply isPasswordTyped_iff in Ht. congruence.
Qed.

Lemma report_lists_NoDup :
  NoDup (map passwordKey (passwordInputs r)) /\
  NoDup (map otherKey (otherInputs r)).
Proof.
  destruct r_cases as [H|H]; rewrite H; simpl.
  - split; constructor.
  - split.
    + apply (uniqueInputs_NoDup samePassword passwordKey samePassword_key).
    + apply (uniqueInputs_NoDup sameOther otherKey sameOther_key).
Qed.

End ReportLists.

Lemma truthy_idem (o : option string) : truthy (truthy o) = truthy o.
Proof.
  destruct o as [s|]; simpl; [|reflexivity].
  destruct (String.eqb s "") eqn:E; simpl; [reflexivity|].
  rewrite E. reflexivity.
Qed.

Lemma otherDescriptor_type (x : cursor) :
  ot_type (otherDescriptor (authInputOf x)) = reportedType x.
Proof.
  unfold otherDescriptor, authInputOf, reportedType, orDefault, orElse.
  simpl ai_id. simpl ai_type. simpl ot_type. rewrite truthy_idem.
  destruct (truthy (attr "id" x)) as [i|] eqn:Ei.
  - rewrite <- Ei, truthy_idem, Ei. reflexivity.
  - rewrite truthy_idem.
    destruct (truthy (attr "type" x)); reflexivity.
Qed.


(** C6.  In the report of either implementation no two entries of
    [passwordInputs], and no two entries of [otherInputs], have the same
    (id, name, type).  The deduplication keeps the first entry of each
    triple in the order of the list: every entry has a kept entry of the
    same triple, and an entry appended to a list is kept exactly when no
    entry before it has its triple.  Two identical inputs with an id and a
    name, and two identical inputs without either, give one entry. *)
Theorem report_lists_deduplicated_by_triple :
  forall d : document,
    (exists r,
        Permissive.parseDocument d = Returns r /\
        NoDup (map passwordKey (passwordInputs r)) /\
        NoDup (map otherKey (otherInputs r))) /\
    (exists r,
        Strict.parseDocument d = Returns r /\
        NoDup (map passwordKey (passwordInputs r)) /\
        NoDup (map otherKey (otherInputs r))) /\
    (forall (l : list PasswordInput) (x : PasswordInput),
        (In x l -> exists y, In y (uniqueInputs samePassword l) /\
                             passwordKey y = passwordKey x) /\
        uniqueInputs samePassword (l ++ [x]) =
        uniqueInputs samePassword l ++
        (if existsb (fun y => samePassword y x) l then [] else [x])) /\
    (forall (l : list OtherInput) (x : OtherInput),
        (In x l -> exists y, In y (uniqueInputs sameOther l) /\
                             otherKey y = otherKey x) /\
        uniqueInputs sameOther (l ++ [x]) =
        uniqueInputs sameOther l ++
        (if existsb (fun y => sameOther y x) l then [] else [x])) /\
    (exists r,
        Permissive.parseDocument twoIdentical = Returns r /\
        length (otherInputs r) = 1) /\
    (exists r,
        Permissive.parseDocument twoAnonymousPasswords = Returns r /\
        Strict.parseDocument twoAnonymousPasswords = Returns r /\
        length (passwordInputs r) = 1).
Proof.
  intro d. split; [|split; [|split; [|split; [|split]]]].
  - destruct (permissive_cases d) as [r [Hr Hc]]. exists r.
    split; [exact Hr|]. exact (report_lists_NoDup _ _ _ Hc).
  - destruct (strict_cases d) as [r [Hr Hc]]. exists r.
    split; [exact Hr|]. exact (report_lists_NoDup _ _ _ Hc).
  - intros l x. split.
    + apply (uniqueInputs_covers samePassword passwordKey samePassword_key).
    + apply (uniqueInputs_snoc samePassword passwordKey samePassword_key).
  - intros l x. split.
    + apply (uniqueInputs_covers sameOther otherKey sameOther_key).
    + apply (uniqueInputs_snoc sameOther otherKey sameOther_key).
  - eexists. split; vm_compute; reflexivity.
  - eexists. split; [vm_compute; reflexivity|].
    split; vm_compute; reflexivity.
Qed.

(** C10 (as amended).  In the report of either implementation every entry
    of [otherInputs] describes a candidate input that is not a password
    input, and its type is the id attribute of that input when it is
    present and not empty, otherwise its type attribute when it is present
    and not empty, otherwise "text". *)
Theorem other_input_type_is_id_then_type_then_text :
  forall d : document,
    (exists r,
        Permissive.parseDocument d = Returns r /\
        Forall (fun o =>
                  exists x, In x (Permissive.authInputs d) /\
                            attr "type" x <> Some "password" /\
                            o = otherDescriptor (authInputOf x) /\
                            ot_type o = reportedType x)
               (otherInputs r)) /\
    (exists r,
        Strict.parseDocument d = Returns r /\
        Forall (fun o =>
                  exists x, In x (Strict.authInputs d) /\
                            attr "type" x <> Some "password" /\
                            o = otherDescriptor (authInputOf x) /\
                            ot_type o = reportedType x)
               (otherInputs r)).
Proof.
  intro d. split.
  - destruct (permissive_cases d) as [r [Hr Hc]]. exists r.
    split; [exact Hr|].
    eapply Forall_impl; [|exact (report_other_from _ _ _ Hc)].
    intros o [x [Hx [Ht Ho]]]. exists x. repeat split; try assumption.
    subst o. apply otherDescriptor_type.
  - destruct (strict_cases d) as [r [Hr Hc]]. exists r.
    split; [exact Hr|].
    eapply Forall_impl; [|exact (report_other_from _ _ _ Hc)].
    intros o [x [Hx [Ht Ho]]]. exists x. repeat split; try assumption.
    subst o. apply otherDescriptor_type.
Qed.

(** C10 (as stated) fails: an input whose id attribute is present and
    empty is reported with its type attribute, not with its id. *)
Lemma empty_id_is_not_reported_as_type :
  exists x r o,
    select isInput emptyId = [x] /\
    attr "id" x = Some "" /\
    attr "type" x = Some "text" /\
    Permissive.parseDocument emptyId = Returns r /\
    otherInputs r = [o] /\
    o = otherDescriptor (authInputOf x) /\
    ot_type o = "text".
Proof.
  eexists. eexists. eexists.
  split; [vm_compute; reflexivity|].
  split; [reflexivity|]. split; [reflexivity|].
  split; [vm_compute; reflexivity|].
  split; [reflexivity|]. split; vm_compute; reflexivity.
Qed.

(** ** C7, C8 and C9: the ancestor walk *)




(** The ancestors recorded in a cursor of the document are elements. *)
Lemma subtree_above_elements (n : node) :
  forall ups rpath c,
    Forall (fun a => isElement a = true) ups ->
    In c (subtree ups rpath n) ->
    Forall (fun a => isElement a = true) (above c).
Proof.
  induction n as [s|s|t a cs IH] using node_induction;
    intros ups rpath c Hups H.
  - contradiction.
  - contradiction.
  - rewrite subtree_element in H. destruct H as [H|H].
    + subst c. exact Hups.
    + assert (Hups' : Forall (fun a => isElement a = true)
                             (Element t a cs :: ups))
        by (constructor; [reflexivity|exact Hups]).
      revert H Hups'. generalize (Element t a cs) as n0. intro n0.
      generalize 0.
      induction IH as [|k cs' Hk _ IHcs]; intros i H Hups'; simpl in H.
      * contradiction.
      * apply in_app_or in H. destruct H as [H|H].
        -- exact (Hk _ _ _ Hups' H).
        -- exact (IHcs (S i) H Hups').
Qed.

Lemma input_above_elements (d : document) (c : cursor) :
  In c (select isInput d) ->
  Forall (fun a => isElement a = true) (above c).
Proof.
  unfold select. intro Hin. apply filter_In in Hin. destruct Hin as [Hin _].
  revert Hin. generalize 0. induction d as [|n d IH]; intros i Hin.
  - contradiction.
  - simpl in Hin. apply in_app_or in Hin. destruct Hin as [Hin|Hin].
    + exact (subtree_above_elements n [] _ c (Forall_nil _) Hin).
    + exact (IH (S i) Hin).
Qed.

Lemma ancestors_here (c : cursor) :
  forall k a, nth_error (ancestors c) k = Some a -> In (here a) (above c).
Proof.
  unfold ancestors. generalize (path c).
  induction (above c) as [|p ups IH]; intros rpath k a H.
  - destruct k; discriminate.
  - destruct k as [|k]; simpl in H.
    + inversion H. simpl. auto.
    + right. exact (IH _ _ _ H).
Qed.

Lemma element_markup (c : cursor) :
  isElement (here c) = true -> markupOf (Some c) <> None.
Proof.
  unfold markupOf. destruct (here c) as [s|s|t a cs]; intro H;
    try discriminate H.
  destruct (outerHTML_element t a cs) as [m E]. rewrite E.
  simpl. discriminate.
Qed.

(** C8.  In a document rooted at [html], for the walk that starts at any
    input: at most 10 ancestors are examined; the ancestor the walk
    returns is one of the first 10 and is eligible; when no examined
    ancestor is eligible the container is the immediate parent of the
    input; a container always exists, at most 10 levels above the
    input; and the record built when that input is the first candidate has
    a [parentElement]. *)
Theorem walk_is_capped_and_falls_back :
  forall (consider : cursor -> option nat) (d : document) (first : cursor),
    htmlRooted d = true ->
    In first (select isInput d) ->
    length (examined first) <= 10 /\
    (forall b,
        walk consider maxDepth (parent first) None 0 = Some b ->
        exists k, k < 10 /\ nth_error (ancestors first) k = Some b /\
                  consider b <> None) /\
    ((forall c, In c (examined first) -> consider c = None) ->
     finalParent consider first = parent first) /\
    (exists c k,
        finalParent consider first = Some c /\
        k < 10 /\ nth_error (ancestors first) k = Some c /\
        length (above first) = length (above c) + S k) /\
    (forall ins,
        hd_error ins = Some first ->
        parentElement (builtReport consider ins) <> None).
Proof.
  intros consider d first Hroot Hin.
  assert (Hwalk : forall b,
             walk consider maxDepth (parent first) None 0 = Some b ->
             exists k, k < 10 /\ nth_error (ancestors first) k = Some b /\
                       consider b <> None).
  { intros b Hb. apply walk_selects in Hb.
    destruct Hb as [i [s [Hi [Hs _]]]].
    apply examined_nth in Hi. destruct Hi as [Hk [Hn _]].
    exists i. split; [exact Hk|]. split; [exact Hn|]. congruence. }
  assert (Hfinal : exists c k,
             finalParent consider first = Some c /\
             k < 10 /\ nth_error (ancestors first) k = Some c /\
             length (above first) = length (above c) + S k).
  { destruct (input_has_parent d first Hroot Hin) as [p Hp].
    unfold finalParent.
    destruct (walk consider maxDepth (parent first) None 0) as [b|] eqn:Hw.
    + destruct (Hwalk b eq_refl) as [k [Hk [Hn _]]].
      exists b, k. split; [reflexivity|]. split; [exact Hk|].
      split; [exact Hn|]. apply ancestors_depth. exact Hn.
    + assert (Hn : nth_error (ancestors first) 0 = Some p).
      { rewrite <- upward_parent, Hp. reflexivity. }
      exists p, 0. split; [exact Hp|]. split; [lia|].
      split; [exact Hn|]. apply ancestors_depth. exact Hn. }
  split; [|split; [exact Hwalk|split; [|split; [exact Hfinal|]]]].
  - unfold examined.
    assert (Hle : forall l, length (untilTopLevel l) <= length l).
    { induction l as [|c l IH]; simpl; [lia|].
      destruct (isTopLevel c); simpl; lia. }
    specialize (Hle (firstn maxDepth (ancestors first))).
    rewrite length_firstn in Hle. unfold maxDepth in *. lia.
  - intro Hnone. unfold finalParent.
    rewrite (proj2 (walk_none consider first) Hnone). reflexivity.
  - intros ins Hhd. destruct ins as [|f rest]; [discriminate|].
    inversion Hhd. subst f.
    destruct Hfinal as [c [k [Hc [_ [Hn _]]]]].
    unfold builtReport. simpl parentElement. unfold container. rewrite Hc.
    apply element_markup.
    assert (Hel := input_above_elements d first Hin).
    rewrite Forall_forall in Hel. apply Hel.
    exact (ancestors_here first k c Hn).
Qed.

(** Below fifteen [div]s of which only the outermost is eligible, the
    container of the password input is its immediate parent. *)
Lemma walk_is_capped_and_falls_back_witness :
  htmlRooted deepPassword = true /\
  exists first far,
    hd_error (Strict.authInputs deepPassword) = Some first /\
    hd_error (Permissive.authInputs deepPassword) = Some first /\
    nth_error (ancestors first) 14 = Some far /\
    Strict.consider far = Some 102 /\
    Permissive.consider far = Some 2 /\
    finalParent Strict.consider first = parent first /\
    finalParent Permissive.consider first = parent first.
Proof.
  split; [reflexivity|].
  eexists. eexists.
  split; [vm_compute; reflexivity|].
  split; [vm_compute; reflexivity|].
  split; [vm_compute; reflexivity|].
  split; [vm_compute; reflexivity|].
  split; [vm_compute; reflexivity|].
  match goal with
  | |- finalParent _ ?f = _ /\ _ =>
      assert (Hin : In f (select isInput deepPassword))
        by (vm_compute; left; reflexivity);
      destruct (walk_is_capped_and_falls_back
                  Strict.consider deepPassword f eq_refl Hin)
        as [_ [_ [HS _]]];
      destruct (walk_is_capped_and_falls_back
                  Permissive.consider deepPassword f eq_refl Hin)
        as [_ [_ [HP _]]]
  end.
  split.
  - apply HS. intros c Hc. vm_compute in Hc.
    repeat (destruct Hc as [Hc|Hc]; [subst c; vm_compute; reflexivity|]).
    contradiction.
  - apply HP. intros c Hc. vm_compute in Hc.
    repeat (destruct Hc as [Hc|Hc]; [subst c; vm_compute; reflexivity|]).
    contradiction.
Defined.

Lemma built_container (consider : cursor -> option nat) (ins : list cursor)
      (m : string) :
  parentElement (builtReport consider ins) = Some m ->
  exists first c,
    hd_error ins = Some first /\
    finalParent consider first = Some c /\
    m = outerHTML (here c).
Proof.
  unfold builtReport, container, markupOf. simpl parentElement.
  destruct ins as [|first rest]; [discriminate|].
  destruct (finalParent consider first) as [c|] eqn:Ef; [|discriminate].
  intro H. unfold truthy in H.
  destruct (String.eqb (outerHTML (here c)) ""); [discriminate|].
  exists first, c. inversion H. repeat split. exact Ef.
Qed.

(** C9 (as amended).  The walk stops at the first body, html or head
    element and never returns one.  The container is such an element only
    through the fallback, when it is the immediate parent of the first
    candidate input; the walk has then examined no ancestor.  The
    [parentElement] of a report is the outer markup of the container of
    the first candidate input. *)
Theorem top_level_container_only_by_fallback :
  forall (consider : cursor -> option nat) (first : cursor),
    (forall b,
        walk consider maxDepth (parent first) None 0 = Some b ->
        isTopLevel b = false) /\
    (forall c, In c (examined first) -> isTopLevel c = false) /\
    (forall c,
        finalParent consider first = Some c ->
        isTopLevel c = true ->
        parent first = Some c /\ examined first = []) /\
    (forall d r m,
        Permissive.parseDocument d = Returns r ->
        parentElement r = Some m ->
        exists f c,
          hd_error (Permissive.authInputs d) = Some f /\
          finalParent Permissive.consider f = Some c /\
          m = outerHTML (here c)) /\
    (forall d r m,
        Strict.parseDocument d = Returns r ->
        parentElement r = Some m ->
        exists f c,
          hd_error (Strict.authInputs d) = Some f /\
          finalParent Strict.consider f = Some c /\
          m = outerHTML (here c)).
Proof.
  intros consider first.
  assert (Hwalk : forall b,
             walk consider maxDepth (parent first) None 0 = Some b ->
             isTopLevel b = false).
  { intros b Hb. apply walk_selects in Hb.
    destruct Hb as [i [s [Hi _]]]. apply examined_nth in Hi. tauto. }
  split; [exact Hwalk|]. split; [|split; [|split]].
  - intros c Hc. apply In_nth_error in Hc. destruct Hc as [k Hk].
    apply examined_nth in Hk. tauto.
  - intros c Hfinal Htop. unfold finalParent in Hfinal.
    destruct (walk consider maxDepth (parent first) None 0) as [b|] eqn:Hw.
    + inversion Hfinal. subst b. rewrite (Hwalk c eq_refl) in Htop.
      discriminate.
    + split; [exact Hfinal|].
      unfold examined. rewrite <- upward_parent, Hfinal. simpl.
      rewrite Htop. reflexivity.
  - intros d r m Hr Hm.
    destruct (permissive_cases d) as [r' [Hr' Hc]].
    rewrite Hr in Hr'. inversion Hr'. subst r'.
    destruct Hc as [Hc|Hc]; rewrite Hc in Hm; [discriminate|].
    apply built_container. exact Hm.
  - intros d r m Hr Hm.
    destruct (strict_cases d) as [r' [Hr' Hc]].
    rewrite Hr in Hr'. inversion Hr'. subst r'.
    destruct Hc as [Hc|Hc]; rewrite Hc in Hm; [discriminate|].
    apply built_container. exact Hm.
Qed.

(** For a password input directly in the body, the container is the body
    and no ancestor was examined. *)
Lemma top_level_container_only_by_fallback_witness :
  exists first body,
    hd_error (Strict.authInputs passwordOnly) = Some first /\
    finalParent Strict.consider first = Some body /\
    isTopLevel body = true /\
    parent first = Some body /\ examined first = [].
Proof.
  eexists. eexists.
  split; [vm_compute; reflexivity|].
  match goal with
  | |- finalParent ?k ?f = Some ?b /\ _ =>
      assert (Hf : finalParent k f = Some b) by (vm_compute; reflexivity);
      assert (Ht : isTopLevel b = true) by (vm_compute; reflexivity);
      split; [exact Hf|]; split; [exact Ht|];
      exact (proj1 (proj2 (proj2
               (top_level_container_only_by_fallback k f))) b Hf Ht)
  end.
Defined.

(** C9 (as stated) fails: for a password input directly in the body both
    implementations report positively, with the outer markup of the body
    element as [parentElement]. *)
Lemma body_is_reported_as_container :
  hasTag "body" passwordOnlyBody = true /\
  (exists first body,
      hd_error (select isInput passwordOnly) = Some first /\
      parent first = Some body /\ here body = passwordOnlyBody) /\
  exists r,
    Permissive.parseDocument passwordOnly = Returns r /\
    Strict.parseDocument passwordOnly = Returns r /\
    hasPasswordInput r = true /\
    parentElement r = Some (outerHTML passwordOnlyBody).
Proof.
  split; [reflexivity|]. split.
  - eexists. eexists. split; [vm_compute; reflexivity|].
    split; vm_compute; reflexivity.
  - eexists. split; [vm_compute; reflexivity|].
    split; [vm_compute; reflexivity|]. split; vm_compute; reflexivity.
Qed.

(** ** The scenarios of the specification, evaluated *)

(** [<form><input type="email" name="e"><input type="password" name="p"></form>]:
    the form is the container, with one password input and, in the first
    implementation, one other input. *)
Example login_form_scenario :
  exists r,
    Permissive.parseDocument (page [loginForm]) = Returns r /\
    hasPasswordInput r = true /\
    formElement r = Some (outerHTML loginForm) /\
    parentElement r = Some (outerHTML loginForm) /\
    inputCount r = 2 /\
    map pw_name (passwordInputs r) = [Some "p"] /\
    map ot_name (otherInputs r) = [Some "e"].
Proof.
  eexists. split; [vm_compute; reflexivity|].
  repeat split; vm_compute; reflexivity.
Qed.

(** [<div><input type="text" placeholder="Search"></div>]: nothing is
    detected. *)
Example search_box_scenario :
  let d := page [el "div" []
                    [input [("type", "text"); ("placeholder", "Search")]]] in
  Permissive.parseDocument d = Returns negativeResult /\
  Strict.parseDocument d = Returns negativeResult.
Proof. split; vm_compute; reflexivity. Qed.

(** * Further properties of the source *)

(** ** Strings: [includes], [join] and [toLowerCase] *)

Lemma prefix_app (k a b : string) :
  String.prefix k a = true -> String.prefix k (a ++ b) = true.
Proof.
  revert a. induction k as [|c k IH]; intros a H.
  - destruct (a ++ b)%string; reflexivity.
  - destruct a as [|x a]; [discriminate|]. simpl in *.
    destruct (ascii_dec c x); [apply IH; exact H|discriminate].
Qed.

Lemma includes_cons (x : ascii) (s k : string) :
  includes (String x s) k =
  if String.prefix k (String x s) then true else includes s k.
Proof. reflexivity. Qed.

Lemma includes_app_l (a b k : string) :
  includes a k = true -> includes (a ++ b) k = true.
Proof.
  induction a as [|x a IH]; intro H.
  - destruct k as [|c k]; [destruct b; reflexivity|].
    simpl in H. discriminate H.
  - change (String x a ++ b)%string with (String x (a ++ b)).
    rewrite includes_cons in *.
    destruct (String.prefix k (String x a)) eqn:E.
    + change (String x (a ++ b)) with (String x a ++ b)%string.
      rewrite (prefix_app _ _ b E). reflexivity.
    + destruct (String.prefix k (String x (a ++ b))); [reflexivity|].
      apply IH. exact H.
Qed.

Lemma includes_app_r (a b k : string) :
  includes b k = true -> includes (a ++ b) k = true.
Proof.
  induction a as [|x a IH]; intro H.
  - exact H.
  - change (String x a ++ b)%string with (String x (a ++ b)).
    rewrite includes_cons.
    destruct (String.prefix k (String x (a ++ b))); [reflexivity|].
    apply IH. exact H.
Qed.

Lemma includes_join (sep : string) (l : list string) (p k : string) :
  In p l -> includes p k = true -> includes (join sep l) k = true.
Proof.
  unfold join. induction l as [|x l IH]; intros Hin Hk.
  - contradiction.
  - destruct l as [|y l].
    + destruct Hin as [Hin|[]]. subst. exact Hk.
    + change (String.concat sep (x :: y :: l))
        with (x ++ sep ++ String.concat sep (y :: l))%string.
      destruct Hin as [Hin|Hin].
      * subst. apply includes_app_l. exact Hk.
      * apply includes_app_r, includes_app_r. apply IH; assumption.
Qed.

(** A word without spaces found in words joined by spaces lies in one of
    them. *)
Lemma prefix_before_space (k u v : string) :
  spaceFree k = true ->
  String.prefix k (u ++ String " "%char v) = true ->
  String.prefix k u = true.
Proof.
  revert u. induction k as [|c k IH]; intros u Hfree H; simpl in *.
  - destruct u; reflexivity.
  - apply andb_true_iff in Hfree. destruct Hfree as [Hc Hfree].
    destruct u as [|x u]; simpl in H.
    + destruct (ascii_dec c " "%char) as [E|E]; [|discriminate].
      subst c. discriminate.
    + simpl. destruct (ascii_dec c x); [|discriminate].
      apply IH; assumption.
Qed.

Lemma includes_around_space (k a b : string) :
  spaceFree k = true ->
  includes (a ++ String " "%char b) k = true ->
  includes a k = true \/ includes b k = true.
Proof.
  intro Hfree. induction a as [|x a IH]; intro H.
  - destruct k as [|c k].
    + left. reflexivity.
    + change ("" ++ String " "%char b)%string with (String " "%char b) in H.
      rewrite includes_cons in H. simpl in Hfree.
      apply andb_true_iff in Hfree. destruct Hfree as [Hc _].
      simpl String.prefix in H.
      destruct (ascii_dec c " "%char) as [E|E].
      * subst c. discriminate.
      * right. exact H.
  - change (String x a ++ String " "%char b)%string
      with (String x (a ++ String " "%char b)) in H.
    rewrite includes_cons in H. rewrite includes_cons.
    destruct (String.prefix k (String x (a ++ String " "%char b))) eqn:E.
    + left.
      change (String x (a ++ String " "%char b))
        with (String x a ++ String " "%char b)%string in E.
      rewrite (prefix_before_space k _ b Hfree E). reflexivity.
    + destruct (IH H) as [Ha|Hb]; [left|right; exact Hb].
      destruct (String.prefix k (String x a)); [reflexivity|exact Ha].
Qed.

Lemma includes_join_piece (k : string) (l : list string) :
  spaceFree k = true -> k <> "" ->
  includes (join " " l) k = true ->
  exists p, In p l /\ includes p k = true.
Proof.
  intros Hfree Hne. unfold join. induction l as [|x l IH]; intro H.
  - simpl in H. destruct k; [contradiction|discriminate].
  - destruct l as [|y l].
    + exists x. simpl in *. auto.
    + change (String.concat " " (x :: y :: l))
        with (x ++ String " "%char (String.concat " " (y :: l)))%string in H.
      apply (includes_around_space k) in H; [|exact Hfree].
      destruct H as [H|H].
      * exists x. simpl. auto.
      * destruct (IH H) as [p [Hp Hk]]. exists p. split; [right|]; assumption.
Qed.

Lemma mapChars_app (f : ascii -> ascii) (a b : string) :
  mapChars f (a ++ b) = (mapChars f a ++ mapChars f b)%string.
Proof.
  induction a as [|x a IH]; simpl; [reflexivity|]. rewrite IH. reflexivity.
Qed.

Lemma toLowerCase_join (l : list string) :
  toLowerCase (join " " l) = join " " (map toLowerCase l).
Proof.
  unfold join, toLowerCase. induction l as [|x l IH]; [reflexivity|].
  destruct l as [|y l]; [reflexivity|].
  change (String.concat " " (x :: y :: l))
    with (x ++ String " "%char (String.concat " " (y :: l)))%string.
  assert (E : forall t, mapChars lowerChar (String " "%char t) =
                        String " "%char (mapChars lowerChar t))
    by reflexivity.
  rewrite mapChars_app, E, IH. reflexivity.
Qed.

(** The attribute bag of an input, as the list of its pieces. *)
Lemma attributes_pieces (bag : list string) (x : cursor) (k : string) :
  spaceFree k = true -> k <> "" ->
  (includes
     (toLowerCase (join " " (flat_map (fun a => keepAttr (attr a x)) bag))) k
   = true <->
   exists a p, In a bag /\ In p (keepAttr (attr a x)) /\
               includes (toLowerCase p) k = true).
Proof.
  intros Hfree Hne. rewrite toLowerCase_join. split.
  - intro H. apply includes_join_piece in H; [|assumption|assumption].
    destruct H as [q [Hq Hk]]. apply in_map_iff in Hq.
    destruct Hq as [p [Hp Hin]]. subst q.
    apply in_flat_map in Hin. destruct Hin as [a [Ha Hpa]].
    exists a, p. auto.
  - intros [a [p [Ha [Hp Hk]]]].
    apply includes_join with (p := toLowerCase p); [|exact Hk].
    apply in_map. apply in_flat_map. exists a. auto.
Qed.

(** ** The two scanners compared *)

Lemma strict_isAuthInput_permissive (x : cursor) :
  Strict.isAuthInput x = true -> Permissive.isAuthInput x = true.
Proof.
  unfold Strict.isAuthInput, Permissive.isAuthInput.
  destruct (isPasswordTyped x); [reflexivity|].
  intro H. apply andb_true_iff in H. destruct H as [Hk _].
  assert (Hkw : existsb (fun keyword => includes (attributes x) keyword)
                        Permissive.authKeywords = true).
  { apply existsb_exists in Hk. destruct Hk as [k [Hin Hk]].
    apply existsb_exists. exists k. split; [|exact Hk].
    unfold Strict.strongAuthKeywords in Hin.
    unfold Permissive.authKeywords. simpl in *. tauto. }
  rewrite Hkw, orb_true_r. reflexivity.
Qed.

Lemma filter_filter_implied {A : Type} (p q : A -> bool) (l : list A) :
  (forall x, p x = true -> q x = true) ->
  filter p (filter q l) = filter p l.
Proof.
  intro H. induction l as [|x l IH]; simpl; [reflexivity|].
  destruct (q x) eqn:Eq; simpl.
  - rewrite IH. reflexivity.
  - destruct (p x) eqn:Ep; [|exact IH].
    rewrite (H x Ep) in Eq. discriminate.
Qed.

Lemma filter_length_le {A : Type} (p : A -> bool) (l : list A) :
  length (filter p l) <= length l.
Proof.
  induction l as [|x l IH]; simpl; [lia|].
  destruct (p x); simpl; lia.
Qed.

Lemma strict_authInputs_filter (d : document) :
  Strict.authInputs d = filter Strict.isAuthInput (Permissive.authInputs d).
Proof.
  unfold Strict.authInputs, Permissive.authInputs. symmetry.
  apply filter_filter_implied. exact strict_isAuthInput_permissive.
Qed.

(** X1.  The candidates of the second (strict) scanner are exactly the
    candidates of the first (permissive) scanner that pass the strict
    test: every strict candidate is a permissive candidate, in the same
    order, and there are no more of them. *)
Theorem strict_candidates_are_permissive_candidates :
  forall d : document,
    Strict.authInputs d =
      filter Strict.isAuthInput (Permissive.authInputs d) /\
    (forall x, In x (Strict.authInputs d) ->
               In x (Permissive.authInputs d)) /\
    length (Strict.authInputs d) <= length (Permissive.authInputs d).
Proof.
  intro d. rewrite strict_authInputs_filter.
  split; [reflexivity|]. split.
  - intros x Hx. apply filter_In in Hx. tauto.
  - apply filter_length_le.
Qed.

(** X2.  Whenever the second (strict) implementation reports a form, the
    first (permissive) one does too; when the permissive one returns the
    negative record, so does the strict one. *)
Theorem strict_positive_implies_permissive_positive :
  forall d : document,
    exists rs rp,
      Strict.parseDocument d = Returns rs /\
      Permissive.parseDocument d = Returns rp /\
      (hasPasswordInput rs = true -> hasPasswordInput rp = true) /\
      (rp = negativeResult -> rs = negativeResult).
Proof.
  intro d. rewrite permissive_result.
  destruct (strict_result d) as [H|[H [Hne _]]]; rewrite H.
  - eexists. eexists. split; [reflexivity|]. split; [reflexivity|].
    split; [discriminate|reflexivity].
  - assert (Hp : Permissive.authInputs d <> []).
    { intro Hnil. apply Hne.
      destruct (Strict.authInputs d) as [|x rest] eqn:E; [reflexivity|].
      assert (Hin : In x (Permissive.authInputs d)).
      { assert (Hx : In x (Strict.authInputs d))
          by (rewrite E; left; reflexivity).
        rewrite strict_authInputs_filter in Hx.
        apply filter_In in Hx. tauto. }
      rewrite Hnil in Hin. contradiction. }
    destruct (Permissive.authInputs d) as [|y rest]; [congruence|].
    eexists. eexists. split; [reflexivity|]. split; [reflexivity|].
    split; [reflexivity|discriminate].
Qed.

(** ** The size of the report *)

Lemma filterIndexed_length {A : Type} (keep : A -> nat -> bool) (l : list A) :
  forall i, length (filterIndexed keep i l) <= length l.
Proof.
  induction l as [|x l IH]; intro i; simpl; [lia|].
  specialize (IH (S i)). destruct (keep x i); simpl; lia.
Qed.

Lemma collectInputs_length (ins : list cursor) :
  forall i processed, length (collectInputs i processed ins) <= length ins.
Proof.
  induction ins as [|x ins IH]; intros i processed; simpl; [lia|].
  destruct (has processed (inputSelector i x)).
  - specialize (IH (S i) processed). lia.
  - simpl. specialize (IH (S i) (inputSelector i x :: processed)). lia.
Qed.

Lemma filter_split_length {A : Type} (p : A -> bool) (l : list A) :
  length (filter p l) + length (filter (fun a => negb (p a)) l) = length l.
Proof.
  induction l as [|x l IH]; simpl; [reflexivity|].
  destruct (p x); simpl; lia.
Qed.

Lemma builtReport_size (consider : cursor -> option nat) (ins : list cursor) :
  length (passwordInputs (builtReport consider ins)) +
  length (otherInputs (builtReport consider ins)) <= length ins.
Proof.
  simpl. unfold uniqueInputs.
  assert (H1 := filterIndexed_length
                  (fun input index =>
                     eqIndex (findIndex (fun i => samePassword i input)
                        (map passwordDescriptor
                           (filter passwordEntry (collectInputs 0 [] ins))))
                        index)
                  (map passwordDescriptor
                       (filter passwordEntry (collectInputs 0 [] ins))) 0).
  assert (H2 := filterIndexed_length
                  (fun input index =>
                     eqIndex (findIndex (fun i => sameOther i input)
                        (map otherDescriptor
                           (filter (fun a => negb (passwordEntry a))
                                   (collectInputs 0 [] ins))))
                        index)
                  (map otherDescriptor
                       (filter (fun a => negb (passwordEntry a))
                               (collectInputs 0 [] ins))) 0).
  rewrite length_map in H1, H2.
  assert (H3 := filter_split_length passwordEntry (collectInputs 0 [] ins)).
  assert (H4 := collectInputs_length ins 0 []).
  lia.
Qed.

(** X3.  Neither implementation reports more inputs than it found
    candidates, nor more candidates than the document has [input]
    elements: the two lists of the report together are at most as long as
    the list of candidates. *)
Theorem report_lists_no_more_than_candidates :
  forall d : document,
    (exists r,
        Permissive.parseDocument d = Returns r /\
        length (passwordInputs r) + length (otherInputs r)
        <= length (Permissive.authInputs d)) /\
    (exists r,
        Strict.parseDocument d = Returns r /\
        length (passwordInputs r) + length (otherInputs r)
        <= length (Strict.authInputs d)) /\
    length (Strict.authInputs d) <= length (Permissive.authInputs d) /\
    length (Permissive.authInputs d) <= length (select isInput d).
Proof.
  intro d. split; [|split; [|split]].
  - destruct (permissive_cases d) as [r [Hr [Hc|Hc]]]; exists r;
      (split; [exact Hr|]); rewrite Hc.
    + simpl. lia.
    + apply builtReport_size.
  - destruct (strict_cases d) as [r [Hr [Hc|Hc]]]; exists r;
      (split; [exact Hr|]); rewrite Hc.
    + simpl. lia.
    + apply builtReport_size.
  - rewrite strict_authInputs_filter. apply filter_length_le.
  - apply filter_length_le.
Qed.

(** ** [getFormSummary] *)

Lemma other_id_or_type (x : cursor) :
  orDefault (ot_id (otherDescriptor (authInputOf x)))
            (ot_type (otherDescriptor (authInputOf x)))
  = ot_type (otherDescriptor (authInputOf x)).
Proof.
  rewrite otherDescriptor_type.
  unfold otherDescriptor, authInputOf, reportedType, orDefault.
  simpl ot_id. rewrite truthy_idem.
  destruct (truthy (attr "id" x)); reflexivity.
Qed.

Lemma summary_of_report (consider : cursor -> option nat)
      (ins : list cursor) (r : AuthForm) (separator : string) :
  r = negativeResult \/ r = builtReport consider ins ->
  Forall (fun o => orDefault (ot_id o) (ot_type o) = ot_type o)
         (otherInputs r) /\
  getFormSummary separator r =
  if hasPasswordInput r
  then join separator
         [("Found " ++ showNat (length (passwordInputs r)) ++
                    " authentication input(s)")%string;
          ("Parent element contains " ++ showNat (inputCount r) ++
                                      " total input(s)")%string;
          ("Other inputs: " ++ join ", " (map ot_type (otherInputs r)))%string]
  else "No authentication forms detected".
Proof.
  intro Hc.
  assert (Hall : Forall (fun o => orDefault (ot_id o) (ot_type o) = ot_type o)
                        (otherInputs r)).
  { eapply Forall_impl; [|exact (report_other_from _ _ _ Hc)].
    intros o [x [_ [_ Ho]]]. subst o. apply other_id_or_type. }
  split; [exact Hall|].
  unfold getFormSummary. destruct (hasPasswordInput r); [|reflexivity].
  simpl negb. cbv iota.
  assert (E : map (fun input => orDefault (ot_id input) (ot_type input))
                  (otherInputs r) = map ot_type (otherInputs r)).
  { apply map_ext_in. intros o Ho.
    rewrite Forall_forall in Hall. apply Hall. exact Ho. }
  rewrite E. reflexivity.
Qed.

(** X4.  In the summary of a report made by either implementation, the
    list after "Other inputs:" is the list of the type fields of
    [otherInputs]: for these entries [input.id || input.type] is the type
    field, which already holds the id when there is one.  A negative
    report is summarised as "No authentication forms detected". *)
Theorem summary_lists_reported_types :
  forall (separator : string) (d : document),
    (exists r,
        Permissive.parseDocument d = Returns r /\
        Forall (fun o => orDefault (ot_id o) (ot_type o) = ot_type o)
               (otherInputs r) /\
        getFormSummary separator r =
        if hasPasswordInput r
        then join separator
               [("Found " ++ showNat (length (passwordInputs r)) ++
                          " authentication input(s)")%string;
                ("Parent element contains " ++ showNat (inputCount r) ++
                                            " total input(s)")%string;
                ("Other inputs: " ++
                   join ", " (map ot_type (otherInputs r)))%string]
        else "No authentication forms detected") /\
    (exists r,
        Strict.parseDocument d = Returns r /\
        Forall (fun o => orDefault (ot_id o) (ot_type o) = ot_type o)
               (otherInputs r) /\
        getFormSummary separator r =
        if hasPasswordInput r
        then join separator
               [("Found " ++ showNat (length (passwordInputs r)) ++
                          " authentication input(s)")%string;
                ("Parent element contains " ++ showNat (inputCount r) ++
                                            " total input(s)")%string;
                ("Other inputs: " ++
                   join ", " (map ot_type (otherInputs r)))%string]
        else "No authentication forms detected").
Proof.
  intros separator d. split.
  - destruct (permissive_cases d) as [r [Hr Hc]]. exists r.
    split; [exact Hr|]. exact (summary_of_report _ _ r separator Hc).
  - destruct (strict_cases d) as [r [Hr Hc]]. exists r.
    split; [exact Hr|]. exact (summary_of_report _ _ r separator Hc).
Qed.

(** ** [debugAuthDetection] *)

Lemma debug_each_spec (l : list cursor) :
  forall k,
    Debug.each k l =
    (map detailsOf (filter (fun p => isPasswordTyped (snd p)) (indexed k l)),
     map detailsOf (filter (fun p => Debug.hasKeyword (snd p)) (indexed k l)),
     map detailsOf (indexed k l)).
Proof.
  induction l as [|x l IH]; intro k.
  - reflexivity.
  - simpl Debug.each. rewrite (IH (S k)).
    change (indexed k (x :: l)) with ((k, x) :: indexed (S k) l).
    simpl. destruct (isPasswordTyped x), (Debug.hasKeyword x); reflexivity.
Qed.

Lemma indexed_nth (l : list cursor) :
  forall k j x, In (j, x) (indexed k l) ->
                k <= j /\ nth_error l (j - k) = Some x.
Proof.
  induction l as [|y l IH]; intros k j x H.
  - contradiction.
  - change (indexed k (y :: l)) with ((k, y) :: indexed (S k) l) in H.
    destruct H as [H|H].
    + inversion H. subst. rewrite Nat.sub_diag. split; [lia|reflexivity].
    + apply IH in H. destruct H as [Hle Hn]. split; [lia|].
      replace (j - k) with (S (j - S k)) by lia. exact Hn.
Qed.

Lemma indexed_indices (l : list cursor) :
  forall k, map fst (indexed k l) = seq k (length l).
Proof.
  induction l as [|y l IH]; intro k; [reflexivity|].
  change (indexed k (y :: l)) with ((k, y) :: indexed (S k) l).
  simpl. rewrite IH. reflexivity.
Qed.

Lemma filter_map_swap {A B : Type} (p : B -> bool) (f : A -> B)
      (l : list A) :
  filter p (map f l) = map f (filter (fun a => p (f a)) l).
Proof.
  induction l as [|x l IH]; simpl; [reflexivity|].
  rewrite IH. destruct (p (f x)); reflexivity.
Qed.

(** A password input has the keyword "password" among its attributes. *)
Lemma password_has_keyword (x : cursor) :
  isPasswordTyped x = true -> Debug.hasKeyword x = true.
Proof.
  intro H. apply isPasswordTyped_iff in H.
  unfold Debug.hasKeyword. apply existsb_exists.
  exists "password". split; [left; reflexivity|].
  unfold Debug.attributes.
  apply (attributes_pieces Debug.bagAttributes x "password");
    [reflexivity|discriminate|].
  exists "type", "password". split; [|split].
  - unfold Debug.bagAttributes. simpl. tauto.
  - rewrite H. left. reflexivity.
  - reflexivity.
Qed.

Lemma debug_keyword_is_candidate (x : cursor) :
  Debug.hasKeyword x = true -> Permissive.isAuthInput x = true.
Proof.
  intro H. unfold Permissive.isAuthInput.
  destruct (isPasswordTyped x); [reflexivity|].
  assert (Hkw : existsb (fun keyword => includes (attributes x) keyword)
                        Permissive.authKeywords = true).
  { unfold Debug.hasKeyword in H. apply existsb_exists in H.
    destruct H as [k [Hin Hk]]. apply existsb_exists. exists k.
    assert (Hk' : spaceFree k = true /\ k <> "" /\
                  In k Permissive.authKeywords).
    { unfold Debug.authKeywords in Hin. unfold Permissive.authKeywords.
      simpl in Hin.
      repeat (destruct Hin as [Hin|Hin];
              [subst k; split; [reflexivity|];
               split; [discriminate|simpl; tauto]|]).
      contradiction. }
    destruct Hk' as [Hfree [Hne Hauth]]. split; [exact Hauth|].
    unfold Debug.attributes in Hk.
    apply (attributes_pieces Debug.bagAttributes x k Hfree Hne) in Hk.
    destruct Hk as [a [p [Ha [Hp Hinc]]]].
    unfold attributes.
    apply (attributes_pieces bagAttributes x k Hfree Hne).
    exists a, p. split; [|auto].
    unfold Debug.bagAttributes in Ha. unfold bagAttributes.
    simpl in *. tauto. }
  rewrite Hkw, orb_true_r. reflexivity.
Qed.

(** X5.  In the debug report the total is the number of [input] elements
    of the document and the number of entries of [allInputDetails], whose
    indices count from 0; the password inputs are exactly the
    password-typed entries of [potentialAuthInputs] (every password input
    is also listed as a potential one); and every potential entry is an
    entry of [allInputDetails]. *)
Theorem debug_report_lists_are_nested :
  forall d : document,
    Debug.totalInputs (Debug.debugDocument d) = length (select isInput d) /\
    length (Debug.allInputDetails (Debug.debugDocument d)) =
      Debug.totalInputs (Debug.debugDocument d) /\
    map Debug.index (Debug.allInputDetails (Debug.debugDocument d)) =
      seq 0 (Debug.totalInputs (Debug.debugDocument d)) /\
    Debug.passwordInputs (Debug.debugDocument d) =
      filter isPasswordDetail
             (Debug.potentialAuthInputs (Debug.debugDocument d)) /\
    (forall i,
        In i (Debug.potentialAuthInputs (Debug.debugDocument d)) ->
        In i (Debug.allInputDetails (Debug.debugDocument d))).
Proof.
  intro d. unfold Debug.debugDocument.
  rewrite debug_each_spec. simpl.
  split; [reflexivity|]. split; [|split; [|split]].
  - rewrite length_map. unfold indexed.
    rewrite length_combine, length_seq. apply Nat.min_id.
  - rewrite map_map. change (fun x => Debug.index (detailsOf x))
      with (fun x : nat * cursor => fst x).
    apply indexed_indices.
  - rewrite filter_map_swap.
    change (fun a => isPasswordDetail (detailsOf a))
      with (fun a : nat * cursor => isPasswordTyped (snd a)).
    rewrite filter_filter_implied; [reflexivity|].
    intros p. apply password_has_keyword.
  - intros i Hi. apply in_map_iff in Hi. destruct Hi as [p [Hp Hin]].
    apply filter_In in Hin. apply in_map_iff. exists p. tauto.
Qed.

(** X6.  Every entry the debug report lists as a potential authentication
    input describes, at its index, an [input] element that the first
    (permissive) implementation takes as a candidate. *)
Theorem debug_potential_inputs_are_permissive_candidates :
  forall (d : document) (i : Debug.InputDetails),
    In i (Debug.potentialAuthInputs (Debug.debugDocument d)) ->
    exists x,
      nth_error (select isInput d) (Debug.index i) = Some x /\
      i = Debug.inputDetails (Debug.index i) x /\
      In x (Permissive.authInputs d).
Proof.
  intros d i Hi. unfold Debug.debugDocument in Hi.
  rewrite debug_each_spec in Hi. simpl in Hi.
  apply in_map_iff in Hi. destruct Hi as [[j x] [Hp Hin]].
  apply filter_In in Hin. destruct Hin as [Hin Hkw]. simpl in Hkw.
  apply indexed_nth in Hin. destruct Hin as [_ Hn].
  rewrite Nat.sub_0_r in Hn. subst i. simpl.
  exists x. split; [exact Hn|]. split; [reflexivity|].
  apply filter_In. split.
  - apply nth_error_In in Hn. exact Hn.
  - apply debug_keyword_is_candidate. exact Hkw.
Qed.

(** On the login form both inputs are potential ones; the second is the
    password input. *)
Lemma debug_potential_inputs_are_permissive_candidates_witness :
  exists i x,
    nth_error (Debug.potentialAuthInputs
                 (Debug.debugDocument (page [loginForm]))) 1 = Some i /\
    nth_error (select isInput (page [loginForm])) (Debug.index i) = Some x /\
    i = Debug.inputDetails (Debug.index i) x /\
    In x (Permissive.authInputs (page [loginForm])).
Proof.
  eexists.
  assert (Hi : nth_error (Debug.potentialAuthInputs
                 (Debug.debugDocument (page [loginForm]))) 1 = Some _)
    by (vm_compute; reflexivity).
  destruct (debug_potential_inputs_are_permissive_candidates
              (page [loginForm]) _ (nth_error_In _ _ Hi)) as [x Hx].
  exists x. split; [exact Hi|exact Hx].
Defined.

(** ** [formatHtml] *)

Lemma string_app_assoc (a b c : string) :
  ((a ++ b) ++ c = a ++ (b ++ c))%string.
Proof.
  induction a as [|x a IH]; simpl; [reflexivity|]. rewrite IH. reflexivity.
Qed.

Lemma string_app_nil_r (a : string) : (a ++ "" = a)%string.
Proof.
  induction a as [|x a IH]; simpl; [reflexivity|]. rewrite IH. reflexivity.
Qed.

Lemma withoutSpace_app (a b : string) :
  withoutSpace (a ++ b) = (withoutSpace a ++ withoutSpace b)%string.
Proof.
  induction a as [|x a IH]; simpl; [reflexivity|].
  destruct (Authentication.isWhiteSpace x); simpl; rewrite IH; reflexivity.
Qed.

Lemma withoutSpace_spaces (n : nat) :
  withoutSpace (Authentication.spaces n) = "".
Proof. induction n as [|n IH]; simpl; [reflexivity|exact IH]. Qed.

Lemma withoutSpace_trimStart (s : string) :
  withoutSpace (Authentication.trimStart s) = withoutSpace s.
Proof.
  induction s as [|c s IH]; simpl; [reflexivity|].
  destruct (Authentication.isWhiteSpace c) eqn:E; [exact IH|].
  simpl. rewrite E. reflexivity.
Qed.

Lemma withoutSpace_trimEnd (s : string) :
  withoutSpace (Authentication.trimEnd s) = withoutSpace s.
Proof.
  induction s as [|c s IH]; simpl; [reflexivity|].
  destruct (Authentication.trimEnd s) as [|y t] eqn:Et.
  - simpl in IH. rewrite <- IH.
    destruct (Authentication.isWhiteSpace c) eqn:E; simpl.
    + reflexivity.
    + rewrite E. reflexivity.
  - rewrite <- IH. simpl.
    destruct (Authentication.isWhiteSpace c); reflexivity.
Qed.

Lemma withoutSpace_trim (s : string) :
  withoutSpace (Authentication.trim s) = withoutSpace s.
Proof.
  unfold Authentication.trim.
  rewrite withoutSpace_trimEnd. apply withoutSpace_trimStart.
Qed.

Lemma isChar_not_space (n : nat) (c : ascii) :
  n = Authentication.lt \/ n = Authentication.gt ->
  Authentication.isChar n c = true ->
  Authentication.isWhiteSpace c = false.
Proof.
  unfold Authentication.isChar, Authentication.isWhiteSpace.
  intros Hn H. apply Nat.eqb_eq in H. rewrite H.
  destruct Hn; subst n; reflexivity.
Qed.

Lemma withoutSpace_collapseGaps (s : string) :
  forall pending,
    withoutSpace (Authentication.pendingText pending) = "" ->
    withoutSpace (Authentication.collapseGaps pending s) = withoutSpace s.
Proof.
  induction s as [|c s IH]; intros pending Hp.
  - exact Hp.
  - assert (Hnext : withoutSpace
                      (Authentication.pendingText
                         (if Authentication.isChar Authentication.gt c
                          then Some ""%string else None)) = "")
      by (destruct (Authentication.isChar Authentication.gt c); reflexivity).
    simpl Authentication.collapseGaps.
    destruct pending as [ws|].
    + destruct (Authentication.isWhiteSpace c) eqn:Ec.
      * rewrite IH.
        -- simpl. rewrite Ec. reflexivity.
        -- simpl. rewrite withoutSpace_app. simpl in Hp. rewrite Hp.
           simpl. rewrite Ec. reflexivity.
      * destruct (Authentication.isChar Authentication.lt c).
        -- simpl. rewrite Ec, (IH None eq_refl). reflexivity.
        -- rewrite withoutSpace_app. simpl in Hp. rewrite Hp.
           simpl. rewrite Ec, (IH _ Hnext). reflexivity.
    + simpl. rewrite (IH _ Hnext). reflexivity.
Qed.

(** The parts, put back together, are the string that was split. *)
Lemma splitTags_whole (s : string) :
  forall text tag,
    fold_right String.append ""%string (Authentication.splitTags text tag s)
    = (text ++ Authentication.pendingText tag ++ s)%string.
Proof.
  induction s as [|c s IH]; intros text tag.
  - simpl. rewrite !string_app_nil_r. reflexivity.
  - simpl Authentication.splitTags. destruct tag as [t|].
    + destruct (Authentication.isChar Authentication.gt c).
      * simpl fold_right. rewrite IH. simpl.
        rewrite string_app_assoc. reflexivity.
      * rewrite IH. simpl. rewrite string_app_assoc. reflexivity.
    + destruct (Authentication.isChar Authentication.lt c).
      * rewrite IH. reflexivity.
      * rewrite IH. simpl. rewrite string_app_assoc. reflexivity.
Qed.

Lemma withoutSpace_formatPart (st : string * nat) (part : string) :
  withoutSpace (fst (Authentication.formatPart st part)) =
  (withoutSpace (fst st) ++ withoutSpace part)%string.
Proof.
  destruct st as [result n]. unfold Authentication.formatPart.
  destruct (String.prefix "</" part).
  - simpl fst. rewrite !withoutSpace_app, withoutSpace_spaces.
    simpl. rewrite string_app_nil_r. reflexivity.
  - destruct (String.prefix "<" part && negb false).
    + destruct (Authentication.isSelfClosing part); simpl fst;
        rewrite !withoutSpace_app, withoutSpace_spaces; simpl;
        rewrite string_app_nil_r; reflexivity.
    + destruct (String.eqb (Authentication.trim part) "") eqn:E; simpl.
      * apply String.eqb_eq in E.
        rewrite <- (withoutSpace_trim part), E. simpl.
        rewrite string_app_nil_r. reflexivity.
      * rewrite !withoutSpace_app, withoutSpace_spaces, withoutSpace_trim.
        simpl. rewrite string_app_nil_r. reflexivity.
Qed.

Lemma withoutSpace_format_loop (parts : list string) :
  forall st,
    withoutSpace (fst (fold_left Authentication.formatPart parts st)) =
    (withoutSpace (fst st) ++
     withoutSpace (fold_right String.append "" parts))%string.
Proof.
  induction parts as [|part parts IH]; intro st; simpl.
  - rewrite string_app_nil_r. reflexivity.
  - rewrite IH, withoutSpace_formatPart, withoutSpace_app.
    apply string_app_assoc.
Qed.

(** X7.  The formatter changes white space only: for every non-empty
    markup, the formatted text and the markup are the same once their
    white space is removed.  No tag and no text is lost, added or
    reordered, whatever the markup. *)
Theorem formatHtml_changes_white_space_only :
  forall html : string,
    html <> "" ->
    withoutSpace (Authentication.formatHtml html) = withoutSpace html.
Proof.
  intros html Hne. unfold Authentication.formatHtml.
  destruct (String.eqb html "") eqn:E;
    [apply String.eqb_eq in E; contradiction|].
  rewrite withoutSpace_trim, withoutSpace_format_loop, splitTags_whole.
  simpl. rewrite withoutSpace_trim.
  apply withoutSpace_collapseGaps. reflexivity.
Qed.

(** A form written on several lines. *)
Lemma formatHtml_changes_white_space_only_witness :
  Authentication.formatHtml "<form> <input type=text>  Name </form>" =
    String.concat Authentication.nl
                  ["<form>"; "  <input type=text>"; "  Name"; "</form>"] /\
  withoutSpace
    (Authentication.formatHtml "<form> <input type=text>  Name </form>") =
    "<form><inputtype=text>Name</form>".
Proof.
  split; [vm_compute; reflexivity|].
  rewrite formatHtml_changes_white_space_only; [|discriminate].
  vm_compute. reflexivity.
Defined.

(** ** The list of URLs of the [Home] component *)

Lemma prefix_self_app (a b : string) : String.prefix a (a ++ b) = true.
Proof.
  induction a as [|x a IH]; simpl.
  - destruct b; reflexivity.
  - destruct (ascii_dec x x); [exact IH|contradiction].
Qed.

Lemma normalize_has_protocol (value : string) :
  String.prefix "http://" (Home.normalize value) = true \/
  String.prefix "https://" (Home.normalize value) = true.
Proof.
  unfold Home.normalize.
  destruct (String.prefix "http://" (Authentication.trim value)) eqn:E1;
    [left; exact E1|].
  destruct (String.prefix "https://" (Authentication.trim value)) eqn:E2;
    [right; exact E2|].
  right. simpl negb. cbv iota. apply prefix_self_app.
Qed.

Lemma NoDup_snoc {A : Type} (l : list A) (x : A) :
  NoDup l -> ~ In x l -> NoDup (l ++ [x]).
Proof.
  induction l as [|y l IH]; intros Hnd Hin; simpl.
  - constructor; [intros []|constructor].
  - inversion Hnd as [|? ? Hy Hl]. subst. constructor.
    + intro H. apply in_app_or in H. destruct H as [H|[H|[]]].
      * contradiction.
      * subst. apply Hin. left. reflexivity.
    + apply IH; [exact Hl|]. intro H. apply Hin. right. exact H.
Qed.

Lemma removal_keeps_urls_distinct (keep : Home.UrlItem -> bool)
      (items : list Home.UrlItem) :
  NoDup (map Home.url items) ->
  NoDup (map Home.url (filter keep items)).
Proof.
  induction items as [|item items IH]; simpl; intro H; [constructor|].
  inversion H as [|? ? Hfresh Hrest]. subst.
  destruct (keep item); simpl; [|apply IH; exact Hrest].
  constructor; [|apply IH; exact Hrest].
  intro Hin. apply Hfresh. apply in_map_iff in Hin.
  destruct Hin as [other [Hurl Hin]]. apply filter_In in Hin.
  apply in_map_iff. exists other. tauto.
Qed.

Lemma alreadyAdded_false (urls : list Home.UrlItem) (u : string) :
  Home.alreadyAdded urls u = false -> ~ In u (map Home.url urls).
Proof.
  unfold Home.alreadyAdded. intros H Hin.
  apply in_map_iff in Hin. destruct Hin as [item [Hu Hin]].
  assert (Ht : existsb (fun item => String.eqb (Home.url item) u) urls
               = true).
  { apply existsb_exists. exists item. split; [exact Hin|].
    apply String.eqb_eq. exact Hu. }
  congruence.
Qed.

Lemma handle_urlsKept (isURL : string -> bool) (e : Home.event)
      (st : Home.State) :
  urlsKept isURL (Home.urls st) ->
  urlsKept isURL (Home.urls (Home.handle isURL e st)).
Proof.
  intros [Hlen [Hnd Hall]]. destruct e as [value|newId|i|cardId]; simpl.
  - repeat split; assumption.
  - unfold Home.handleSubmit.
    destruct (String.eqb (Authentication.trim (Home.input st)) "");
      [repeat split; assumption|].
    destruct (isURL (Home.normalize (Home.input st))) eqn:Hurl;
      [|repeat split; assumption].
    simpl negb. cbv iota.
    destruct (Home.alreadyAdded (Home.urls st)
                                (Home.normalize (Home.input st))) eqn:Hdup;
      [repeat split; assumption|].
    destruct (5 <=? length (Home.urls st))%nat eqn:Hcap;
      [repeat split; assumption|].
    apply Nat.leb_gt in Hcap. simpl. split; [|split].
    + rewrite length_app. simpl. lia.
    + rewrite map_app. simpl. apply NoDup_snoc; [exact Hnd|].
      apply alreadyAdded_false. exact Hdup.
    + apply Forall_app. split; [exact Hall|].
      constructor; [|constructor]. simpl.
      split; [apply normalize_has_protocol|exact Hurl].
  - split; [|split].
    + assert (H := filter_length_le
                     (fun item => negb (String.eqb (Home.id item) i))
                     (Home.urls st)). lia.
    + apply removal_keeps_urls_distinct. exact Hnd.
    + rewrite Forall_forall in *. intros item Hin.
      apply filter_In in Hin. apply Hall. tauto.
  - repeat split; assumption.
Qed.

Lemma handle_expandedListed (isURL : string -> bool) (e : Home.event)
      (st : Home.State) :
  Home.enabled e st = true ->
  expandedListed st ->
  expandedListed (Home.handle isURL e st).
Proof.
  unfold expandedListed. intros Hen H.
  destruct e as [value|newId|i|cardId]; simpl.
  - exact H.
  - unfold Home.handleSubmit.
    repeat match goal with
           | |- context [if ?b then _ else _] => destruct b
           end; simpl; try exact H.
    intros c Hc. rewrite map_app. apply in_or_app. left. apply H. exact Hc.
  - intros c Hc.
    destruct (optEqb (Home.expandedCardId st) (Some i)) eqn:E;
      [discriminate|].
    assert (Hne : c <> i).
    { intro Heq. subst c. rewrite Hc in E.
      simpl in E. rewrite String.eqb_refl in E. discriminate. }
    specialize (H c Hc). apply in_map_iff in H.
    destruct H as [item [Hid Hin]]. apply in_map_iff. exists item.
    split; [exact Hid|]. apply filter_In. split; [exact Hin|].
    apply negb_true_iff. apply String.eqb_neq. congruence.
  - intros c Hc. simpl in Hen.
    destruct (optEqb (Home.expandedCardId st) (Some cardId));
      [discriminate|].
    inversion Hc. subst c. apply existsb_exists in Hen.
    destruct Hen as [item [Hin Hid]]. apply String.eqb_eq in Hid.
    apply in_map_iff. exists item. auto.
Qed.

(** X8.  Whatever validator is used and whatever the user types, submits,
    removes or toggles, the handlers keep the list of URLs within five
    entries, without a repeated URL, and made of URLs that start with
    [http://] or [https://] and were accepted by the validator. *)
Theorem url_list_stays_capped_and_distinct :
  forall (isURL : string -> bool) (events : list Home.event)
         (st : Home.State),
    urlsKept isURL (Home.urls st) ->
    urlsKept isURL
      (Home.urls (fold_left (fun s e => Home.handle isURL e s) events st)).
Proof.
  intros isURL events. induction events as [|e events IH]; intros st H.
  - exact H.
  - simpl. apply IH. apply handle_urlsKept. exact H.
Qed.

(** Seven different addresses are submitted to the empty list: five are
    kept. *)
Lemma url_list_stays_capped_and_distinct_witness :
  urlsKept (fun _ => true) (Home.urls Home.initialState) /\
  urlsKept (fun _ => true)
    (Home.urls
       (fold_left (fun s e => Home.handle (fun _ => true) e s)
          [Home.Change "a.com"; Home.Submit "1";
           Home.Change "b.com"; Home.Submit "2";
           Home.Change " a.com "; Home.Submit "3";
           Home.Change "c.com"; Home.Submit "4";
           Home.Change "http://d.com"; Home.Submit "5";
           Home.Change "e.com"; Home.Submit "6";
           Home.Change "f.com"; Home.Submit "7"]
          Home.initialState)) /\
  map Home.url
    (Home.urls
       (fold_left (fun s e => Home.handle (fun _ => true) e s)
          [Home.Change "a.com"; Home.Submit "1";
           Home.Change "b.com"; Home.Submit "2";
           Home.Change " a.com "; Home.Submit "3";
           Home.Change "c.com"; Home.Submit "4";
           Home.Change "http://d.com"; Home.Submit "5";
           Home.Change "e.com"; Home.Submit "6";
           Home.Change "f.com"; Home.Submit "7"]
          Home.initialState))
  = ["https://a.com"; "https://b.com"; "https://c.com"; "http://d.com";
     "https://e.com"].
Proof.
  assert (H0 : urlsKept (fun _ => true) (Home.urls Home.initialState)).
  { unfold urlsKept. simpl. split; [lia|]. split; constructor. }
  split; [exact H0|]. split.
  - apply url_list_stays_capped_and_distinct. exact H0.
  - vm_compute. reflexivity.
Defined.

(** X9.  As long as only cards of the list are toggled, the expanded card
    is one of the listed cards, whatever is typed, submitted or removed:
    removing the expanded card collapses it. *)
Theorem expanded_card_is_listed :
  forall (isURL : string -> bool) (events : list Home.event)
         (st st' : Home.State),
    expandedListed st ->
    Home.run isURL events st = Some st' ->
    expandedListed st'.
Proof.
  intros isURL events.
  induction events as [|e events IH]; intros st st' H Hrun; simpl in Hrun.
  - inversion Hrun. subst. exact H.
  - destruct (Home.enabled e st) eqn:Hen; [|discriminate].
    apply (IH _ _ (handle_expandedListed isURL e st Hen H) Hrun).
Qed.

(** Two cards are added, the first is expanded and then removed. *)
Lemma expanded_card_is_listed_witness :
  exists st',
    expandedListed Home.initialState /\
    Home.run (fun _ => true)
             [Home.Change "a.com"; Home.Submit "1";
              Home.Change "b.com"; Home.Submit "2";
              Home.Toggle "1"; Home.Remove "1"]
             Home.initialState = Some st' /\
    Home.expandedCardId st' = None /\
    expandedListed st'.
Proof.
  eexists.
  assert (H0 : expandedListed Home.initialState)
    by (intros c Hc; discriminate Hc).
  assert (Hrun : Home.run (fun _ => true)
             [Home.Change "a.com"; Home.Submit "1";
              Home.Change "b.com"; Home.Submit "2";
              Home.Toggle "1"; Home.Remove "1"]
             Home.initialState = Some _) by (vm_compute; reflexivity).
  split; [exact H0|]. split; [exact Hrun|]. split; [reflexivity|].
  exact (expanded_card_is_listed _ _ _ _ H0 Hrun).
Defined.

(** ** The font size of the [Authentication] component *)

(** X10.  Starting from 11, any sequence of clicks on the two font
    buttons leaves the font size between 8 and 20. *)
Theorem font_size_stays_within_bounds :
  forall clicks : list bool,
    8 <= fontSizeAfter clicks /\ fontSizeAfter clicks <= 20.
Proof.
  intro clicks. unfold fontSizeAfter.
  assert (H : 8 <= Authentication.initialFontSize <= 20)
    by (unfold Authentication.initialFontSize; lia).
  revert H. generalize Authentication.initialFontSize.
  induction clicks as [|larger clicks IH]; intros size H; simpl.
  - exact H.
  - apply IH. destruct larger.
    + unfold Authentication.increaseFontSize. lia.
    + unfold Authentication.decreaseFontSize. lia.
Qed.

(** ** A positive report is never empty *)

Lemma built_lists_nonempty (consider : cursor -> option nat)
      (ins : list cursor) :
  ins <> [] ->
  passwordInputs (builtReport consider ins) <> [] \/
  otherInputs (builtReport consider ins) <> [].
Proof.
  destruct ins as [|x rest]; [congruence|]. intros _.
  destruct (collectInputs_first x rest) as [more E].
  unfold builtReport. cbn [passwordInputs otherInputs]. rewrite E.
  cbn [filter].
  assert (Hx : passwordEntry (authInputOf x) = isPasswordTyped x)
    by reflexivity.
  rewrite !Hx. destruct (isPasswordTyped x); cbn [negb].
  - left. simpl map. intro H.
    assert (Hin := uniqueInputs_keeps samePassword passwordKey
                     samePassword_key []
                     (map passwordDescriptor (filter passwordEntry more))
                     (passwordDescriptor (authInputOf x)) eq_refl).
    simpl app in Hin. rewrite H in Hin. contradiction.
  - right. simpl map. intro H.
    assert (Hin := uniqueInputs_keeps sameOther otherKey sameOther_key []
                     (map otherDescriptor
                          (filter (fun a => negb (passwordEntry a)) more))
                     (otherDescriptor (authInputOf x)) eq_refl).
    simpl app in Hin. rewrite H in Hin. contradiction.
Qed.

(** X11.  The first implementation reports a form exactly when it found a
    candidate input; the second one only when it found one.  A positive
    report of either implementation lists at least one input in
    [passwordInputs] or [otherInputs]. *)
Theorem positive_report_lists_an_input :
  forall d : document,
    (exists r,
        Permissive.parseDocument d = Returns r /\
        (hasPasswordInput r = true <-> Permissive.authInputs d <> []) /\
        (hasPasswordInput r = true ->
         passwordInputs r <> [] \/ otherInputs r <> [])) /\
    (exists r,
        Strict.parseDocument d = Returns r /\
        (hasPasswordInput r = true ->
         Strict.authInputs d <> [] /\
         (passwordInputs r <> [] \/ otherInputs r <> []))).
Proof.
  intro d. split.
  - rewrite permissive_result. eexists. split; [reflexivity|].
    destruct (Permissive.authInputs d) as [|x rest] eqn:E.
    + simpl. split; [split; [discriminate|congruence]|discriminate].
    + split; [split; [discriminate|reflexivity]|].
      intros _. apply built_lists_nonempty. discriminate.
  - destruct (strict_result d) as [H|[H [Hne _]]]; rewrite H;
      eexists; (split; [reflexivity|]).
    + simpl. discriminate.
    + intros _. split; [exact Hne|].
      apply built_lists_nonempty. exact Hne.
Qed.
